(** * ROI monitors of the Ginie autopilot: a shallow embedding

    The development follows three scripts of the repository:

    - [roi_monitor.py]          (module [RoiMonitor]): the one-shot ROI report;
    - [monitor_sqdusdt.py]      (module [Monitor]):    the watcher with a
      session time limit that confirms a closure with [grep];
    - [monitor_sqdusdt_live.py] (module [Live]):       the watcher that reads
      the structured server log.

    Numbers.  The scripts compute with Python numbers.  The embedding uses
    exact rationals ([Q]): every arithmetic identity below is a statement of
    exact arithmetic, compared with [==].  The fixture of [calculate_roi] is
    evaluated a second time in IEEE binary64 ([RoiMonitor.calculate_roi_b64]),
    the arithmetic CPython uses for [float].

    Exceptions.  A Python expression that can raise is a [result]; the
    handlers of the scripts are written out where they are in the source. *)

From Stdlib Require Import Ascii QArith Lqa Lia PrimFloat.
From stdpp Require Import gmap strings list.

Set Warnings "-inexact-float,-register-all".

(** ** Python values shared by the three scripts *)

Inductive exn : Type :=
| KeyError (key : string)
| AttributeError
| TypeError
| ZeroDivisionError
| ValueError
| UnboundLocalError.

Inductive result (A : Type) : Type :=
| Ok (a : A)
| Raise (e : exn).
Arguments Ok {A} a.
Arguments Raise {A} e.

#[global] Instance result_ret : MRet result := fun A a => Ok a.
#[global] Instance result_bind : MBind result := fun A B k r =>
  match r with
  | Ok a => k a
  | Raise e => Raise e
  end.

(** [d[k]] on a record read from JSON: [KeyError] when the key is missing. *)
Definition key {A : Type} (name : string) (field : option A) : result A :=
  match field with
  | Some a => Ok a
  | None => Raise (KeyError name)
  end.

(** [a / b]: Python raises [ZeroDivisionError] on a zero divisor. *)
Definition pydiv (a b : Q) : result Q :=
  if Qeq_bool b 0 then Raise ZeroDivisionError else Ok (a / b)%Q.

(** [d.get(k, default)] on a dictionary with string keys. *)
Definition dict_get {V : Type} (d : gmap string V) (k : string) (default : V) : V :=
  match d !! k with
  | Some v => v
  | None => default
  end.

(** One element of [data['positions']].  A field is [None] when the JSON
    record lacks the key. *)
Record Position : Type := mkPosition {
  symbol : option string;
  side : option string;
  entry_price : option Q;
  highest_price : option Q;
  remaining_qty : option Q;
  leverage : option Q;
  mode : option string
}.

(** What [get_positions()] returns: [None] (curl timed out, the transport
    failed, stdout is not JSON) or any other falsy value is [NoData]; a
    dictionary is [Data] with [data.get('positions', [])]; a truthy value
    that is not a dictionary is [NonDict]. *)
Inductive response : Type :=
| NoData
| NonDict
| Data (positions : list Position).

(** ** Text

    A [str] is modelled by its bytes.  [lower] folds the ASCII capitals, as
    [str.lower] and [grep -i] do on ASCII text; the needles searched below
    are ASCII. *)

Definition lower_char (c : ascii) : ascii :=
  let n := nat_of_ascii c in
  if (65 <=? n)%nat && (n <=? 90)%nat then ascii_of_nat (n + 32) else c.

Fixpoint lower (s : string) : string :=
  match s with
  | EmptyString => EmptyString
  | String c rest => String (lower_char c) (lower rest)
  end.

(** [strip_prefix p s] is the rest of [s] behind its prefix [p]. *)
Fixpoint strip_prefix (p s : string) : option string :=
  match p, s with
  | EmptyString, _ => Some s
  | String a p', String b s' => if Ascii.eqb a b then strip_prefix p' s' else None
  | String _ _, EmptyString => None
  end.

(** [after needle hay] is what follows the first occurrence of [needle]. *)
Fixpoint after (needle hay : string) : option string :=
  match strip_prefix needle hay with
  | Some rest => Some rest
  | None =>
      match hay with
      | EmptyString => None
      | String _ hay' => after needle hay'
      end
  end.

(** [needle in hay]. *)
Definition contains (needle hay : string) : bool :=
  match after needle hay with
  | Some _ => true
  | None => false
  end.

Definition newline : string := String (ascii_of_nat 10) EmptyString.

(** ** JSON values and the server log *)

Inductive json : Type :=
| JNull
| JBool (b : bool)
| JNumber (q : Q)
| JString (s : string)
| JList (elements : list json)
| JDict (items : list (string * json)).

Fixpoint assoc (k : string) (items : list (string * json)) : option json :=
  match items with
  | [] => None
  | (k', v) :: rest => if String.eqb k k' then Some v else assoc k rest
  end.

(** [d.get(k, default)] on a parsed value: only a dictionary has [get]. *)
Definition json_get (d : json) (k : string) (default : json) : result json :=
  match d with
  | JDict items =>
      Ok (match assoc k items with Some v => v | None => default end)
  | _ => Raise AttributeError
  end.

(** [v == s] for a string literal [s]. *)
Definition json_is_string (v : json) (s : string) : bool :=
  match v with
  | JString s' => String.eqb s' s
  | _ => false
  end.

(** A line of [server.log]: its text, and the value [json.loads] returns
    on it ([None] when [json.loads] raises). *)
Record log_line : Type := mkLine {
  text : string;
  parsed : option json
}.

Definition json_loads (line : log_line) : result json :=
  match parsed line with
  | Some v => Ok v
  | None => Raise ValueError
  end.

(** The log file, oldest line first; [None] when it cannot be read. *)
Definition log_file : Type := option (list log_line).

(** ** roi_monitor.py *)

Module RoiMonitor.

Definition THRESHOLDS : gmap string Q :=
  {[ "ultra_fast" := 3%Q; "scalp" := 5%Q; "swing" := 8%Q; "position" := 10%Q ]}.

Definition FEE_RATE : Q := 0.0004%Q.

(** [THRESHOLDS.get(mode, 8.0)], line 79. *)
Definition threshold_for (mode : string) : Q := dict_get THRESHOLDS mode 8%Q.

Section Calculator.

(** The module constant [FEE_RATE], read by [calculate_roi]. *)
Variable fee_rate : Q.

(** Lines 17-20. *)
Definition gross_pnl (entry current qty : Q) (side : string) : Q :=
  if String.eqb side "LONG" then ((current - entry) * qty)%Q
  else ((entry - current) * qty)%Q.

(** Lines 15-30: returns [(roi, net_pnl)]. *)
Definition calculate_roi_at (entry current qty : Q) (side : string) (leverage : Q)
  : result (Q * Q) :=
  let gross := gross_pnl entry current qty side in
  let notional := (qty * entry)%Q in
  let fees := ((notional * fee_rate) + (current * qty * fee_rate))%Q in
  let net_pnl := (gross - fees)%Q in
  if Qle_bool notional 0 then Ok (0%Q, 0%Q)
  else
    q ← pydiv (net_pnl * leverage) notional;
    Ok ((q * 100)%Q, net_pnl).

End Calculator.

Definition calculate_roi := calculate_roi_at FEE_RATE.

(** The same body in IEEE binary64, round to nearest even. *)
Definition calculate_roi_b64 (entry current qty : float) (long : bool) (leverage : float)
  : float * float :=
  let fee := 0.0004%float in
  let gross := if long then ((current - entry) * qty)%float
               else ((entry - current) * qty)%float in
  let notional := (qty * entry)%float in
  let fees := ((notional * fee) + (current * qty * fee))%float in
  let net_pnl := (gross - fees)%float in
  if PrimFloat.leb notional 0%float then (0%float, 0%float)
  else (((net_pnl * leverage / notional) * 100)%float, net_pnl).

(** *** The report of [main], lines 46-139 *)

(** An entry of [threshold_hits], lines 87-96. *)
Record hit : Type := mkHit {
  hit_symbol : string;
  hit_mode : string;
  hit_roi : Q;
  hit_threshold : Q;
  hit_side : string;
  hit_entry : Q;
  hit_current : Q;
  hit_leverage : Q
}.

(** The status column, lines 86 and 99-100. *)
Inductive status : Type :=
| Hit (above : Q)
| Waiting (remaining : Q).

(** A line of the table, line 103. *)
Record row : Type := mkRow {
  row_symbol : string;
  row_side : string;
  row_mode : string;
  row_leverage : Q;
  row_entry : Q;
  row_current : Q;
  row_roi : Q;
  row_threshold : Q;
  row_status : status
}.

(** The table printed so far and the accumulators of lines 65-67. *)
Record tally : Type := mkTally {
  rows : list row;
  threshold_hits : list hit;
  total_roi : Q;
  positive_count : nat
}.

Definition empty_tally : tally :=
  {| rows := []; threshold_hits := []; total_roi := 0%Q; positive_count := 0 |}.

(** The body of the [for] loop, lines 70-103. *)
Definition visit (pos : Position) (t : tally) : result tally :=
  sym ← key "symbol" (symbol pos);
  entry ← key "entry_price" (entry_price pos);
  current ← key "highest_price" (highest_price pos);
  qty ← key "remaining_qty" (remaining_qty pos);
  sd ← key "side" (side pos);
  lev ← key "leverage" (leverage pos);
  md ← key "mode" (mode pos);
  r ← calculate_roi entry current qty sd lev;
  let roi := fst r in
  let limit := threshold_for md in
  let total := (total_roi t + roi)%Q in
  let positive :=
    if negb (Qle_bool roi 0) then S (positive_count t) else positive_count t in
  let line (st : status) :=
    {| row_symbol := sym; row_side := sd; row_mode := md; row_leverage := lev;
       row_entry := entry; row_current := current; row_roi := roi;
       row_threshold := limit; row_status := st |} in
  if Qle_bool limit roi then
    Ok {| rows := rows t ++ [line (Hit (roi - limit)%Q)];
          threshold_hits :=
            threshold_hits t ++
              [{| hit_symbol := sym; hit_mode := md; hit_roi := roi;
                  hit_threshold := limit; hit_side := sd; hit_entry := entry;
                  hit_current := current; hit_leverage := lev |}];
          total_roi := total; positive_count := positive |}
  else
    Ok {| rows := rows t ++ [line (Waiting (limit - roi)%Q)];
          threshold_hits := threshold_hits t;
          total_roi := total; positive_count := positive |}.

(** The [for] loop of line 69. *)
Fixpoint visit_all (positions : list Position) (t : tally) : result tally :=
  match positions with
  | [] => Ok t
  | pos :: rest => t' ← visit pos t; visit_all rest t'
  end.

(** What [main] prints below the table. *)
Inductive line : Type :=
| Row (r : row)                                            (* line 103 *)
| Summary (count : nat) (avg_roi : Q) (positive : nat) (win_rate : Q) (* line 110 *)
| HitsHeader                                               (* lines 115-117 *)
| HitDetail (index : nat) (h : hit) (price_move : Q)       (* lines 119-125 *)
| ReadyForExit (count : nat)                               (* lines 127-129 *)
| MonitoringActive.                                        (* lines 131-139 *)

Definition Qnat (n : nat) : Q := inject_Z (Z.of_nat n).

(** Lines 107-110, for a snapshot of [n] positions. *)
Definition summary (n : nat) (t : tally) : result (list line) :=
  match n with
  | O => Ok []
  | S _ =>
      avg_roi ← pydiv (total_roi t) (Qnat n);
      share ← pydiv (Qnat (positive_count t)) (Qnat n);
      Ok [Summary n avg_roi (positive_count t) (share * 100)%Q]
  end.

(** Lines 118-125: [enumerate(threshold_hits, 1)] counted from [index]. *)
Fixpoint details (index : nat) (hits : list hit) : result (list line) :=
  match hits with
  | [] => Ok []
  | h :: rest =>
      move ← pydiv (hit_current h - hit_entry h) (hit_entry h);
      below ← details (S index) rest;
      Ok (HitDetail index h (move * 100)%Q :: below)
  end.

(** Lines 114-139. *)
Definition exits (t : tally) : result (list line) :=
  match threshold_hits t with
  | [] => Ok [MonitoringActive]
  | hits =>
      listed ← details 1 hits;
      Ok (HitsHeader :: listed ++ [ReadyForExit (length hits)])
  end.

(** How [main] ends: [sys.exit(1)], the complete report, or an exception
    that nothing catches. *)
Inductive outcome : Type :=
| Exit (code : nat)
| Printed (lines : list line)
| Uncaught (e : exn).

(** Lines 46-139. *)
Definition main (data : response) : outcome :=
  match data with
  | NoData => Exit 1
  | NonDict => Uncaught AttributeError
  | Data positions =>
      match (t ← visit_all positions empty_tally;
             footer ← summary (length positions) t;
             listed ← exits t;
             Ok (map Row (rows t) ++ footer ++ listed)) with
      | Ok lines => Printed lines
      | Raise e => Uncaught e
      end
  end.

(** A record with every key the scripts read. *)
Definition complete (pos : Position) : Prop :=
  is_Some (symbol pos) /\ is_Some (side pos) /\ is_Some (entry_price pos) /\
  is_Some (highest_price pos) /\ is_Some (remaining_qty pos) /\
  is_Some (leverage pos) /\ is_Some (mode pos).

Definition row_is_hit (r : row) : bool :=
  match row_status r with
  | Hit _ => true
  | Waiting _ => false
  end.

Definition row_is_positive (r : row) : bool := negb (Qle_bool (row_roi r) 0).

Fixpoint sum_roi (table : list row) : Q :=
  match table with
  | [] => 0%Q
  | r :: rest => (sum_roi rest + row_roi r)%Q
  end.

(** The entry of [threshold_hits] made from the values of a table line. *)
Definition hit_of_row (r : row) : hit :=
  {| hit_symbol := row_symbol r; hit_mode := row_mode r; hit_roi := row_roi r;
     hit_threshold := row_threshold r; hit_side := row_side r;
     hit_entry := row_entry r; hit_current := row_current r;
     hit_leverage := row_leverage r |}.

(** The table line of a position: its columns are the values of the
    record, the ROI is the one [calculate_roi] returns for them, the
    threshold is the one of its mode, and the status is the comparison of
    the two (lines 70-103). *)
Definition row_of (pos : Position) (r : row) : Prop :=
  symbol pos = Some (row_symbol r) /\
  side pos = Some (row_side r) /\
  mode pos = Some (row_mode r) /\
  leverage pos = Some (row_leverage r) /\
  entry_price pos = Some (row_entry r) /\
  highest_price pos = Some (row_current r) /\
  (exists qty net_pnl,
      remaining_qty pos = Some qty /\
      calculate_roi (row_entry r) (row_current r) qty (row_side r) (row_leverage r)
        = Ok (row_roi r, net_pnl)) /\
  row_threshold r = threshold_for (row_mode r) /\
  row_status r =
    (if Qle_bool (row_threshold r) (row_roi r)
     then Hit (row_roi r - row_threshold r)%Q
     else Waiting (row_threshold r - row_roi r)%Q).

End RoiMonitor.

(** ** monitor_sqdusdt.py *)

Module Monitor.

Definition THRESHOLDS : gmap string Q := {[ "swing" := 8%Q ]}.
Definition FEE_RATE : Q := 0.0004%Q.
Definition CHECK_INTERVAL : Q := 10%Q.
Definition MAX_MONITORING_TIME : Q := 3600%Q.

(** Lines 17-32: returns [roi] alone. *)
Definition calculate_roi (entry current qty : Q) (side : string) (leverage : Q)
  : result Q :=
  let gross_pnl :=
    if String.eqb side "LONG" then ((current - entry) * qty)%Q
    else ((entry - current) * qty)%Q in
  let notional := (qty * entry)%Q in
  let fees := ((notional * FEE_RATE) + (current * qty * FEE_RATE))%Q in
  let net_pnl := (gross_pnl - fees)%Q in
  if Qle_bool notional 0 then Ok 0%Q
  else
    q ← pydiv (net_pnl * leverage) notional;
    Ok (q * 100)%Q.

(** Lines 54-57: the first position whose symbol is SQDUSDT. *)
Fixpoint find_in (positions : list Position) : result (option Position) :=
  match positions with
  | [] => Ok None
  | pos :: rest =>
      sym ← key "symbol" (symbol pos);
      if String.eqb sym "SQDUSDT" then Ok (Some pos) else find_in rest
  end.

(** Lines 48-57. *)
Definition find_sqdusdt_position (data : response) : result (option Position) :=
  match data with
  | NoData => Ok None
  | NonDict => Raise AttributeError
  | Data positions => find_in positions
  end.

(** [grep -i 'sqdusdt.*booking profit']: does the line match? *)
Definition grep_match (line : log_line) : bool :=
  match after "sqdusdt" (lower (text line)) with
  | Some rest => contains "booking profit" rest
  | None => false
  end.

Fixpoint grep_stdout (lines : list log_line) : string :=
  match lines with
  | [] => EmptyString
  | line :: rest =>
      if grep_match line
      then String.app (text line) (String.app newline (grep_stdout rest))
      else grep_stdout rest
  end.

(** Lines 59-70: the output of [grep] over the whole file, [None] when it
    is empty or when [grep] fails. *)
Definition check_server_log (log : log_file) : option string :=
  match log with
  | None => None
  | Some lines =>
      match grep_stdout lines with
      | EmptyString => None
      | out => Some out
      end
  end.

(** The local variables of [main], lines 83-87 and 117. *)
Record session : Type := mkSession {
  check_count : nat;
  last_roi : option Q;
  roi_progression : list (string * Q);
  position_closed : bool;
  threshold : option Q
}.

Definition start : session :=
  {| check_count := 0; last_roi := None; roi_progression := [];
     position_closed := false; threshold := None |}.

(** What one pass of the loop reads from outside: the seconds elapsed at
    line 90, the time stamp of line 97, and the answer of
    [get_positions()] at line 100. *)
Record observation : Type := mkObservation {
  elapsed : Q;
  stamp : string;
  snapshot : response
}.

(** The lines the script prints, and its sleeps, without their layout. *)
Inductive event : Type :=
| TimeLimit                            (* line 93 *)
| NotFound                             (* line 104 *)
| ThresholdHit (roi limit : Q)         (* lines 125-129 *)
| Status (roi gap : Q)                 (* line 157 *)
| Sleep (seconds : Q)                  (* lines 130 and 160 *)
| SessionComplete                      (* lines 163-165 *)
| PositionClosed                       (* line 168 *)
| FinalRoi (roi : Q) (checks : nat)    (* lines 169-171 *)
| Confirmed (entry : string)           (* lines 176-177 *)
| CheckServerLog                       (* line 179 *)
| NoThresholdHit                       (* line 181 *)
| LastRoi (roi need : Q)               (* lines 183-184 *)
| Progression (samples : list (string * Q)). (* lines 189-192 *)

Inductive control : Type :=
| Continue
| Break
| Abort (e : exn).

(** Lines 108-117: the ROI of the position and its threshold. *)
Definition measure (pos : Position) : result (Q * Q) :=
  entry ← key "entry_price" (entry_price pos);
  current ← key "highest_price" (highest_price pos);
  qty ← key "remaining_qty" (remaining_qty pos);
  sd ← key "side" (side pos);
  lev ← key "leverage" (leverage pos);
  roi ← calculate_roi entry current qty sd lev;
  md ← key "mode" (mode pos);
  Ok (roi, dict_get THRESHOLDS md 8%Q).

(** One pass of the [while True] loop, lines 89-160.  [KeyboardInterrupt]
    is not part of an observation. *)
Definition iteration (o : observation) (s : session)
  : list event * session * control :=
  if negb (Qle_bool (elapsed o) MAX_MONITORING_TIME) then ([TimeLimit], s, Break)
  else
    let s1 := {| check_count := S (check_count s); last_roi := last_roi s;
                 roi_progression := roi_progression s;
                 position_closed := position_closed s;
                 threshold := threshold s |} in
    match find_sqdusdt_position (snapshot o) with
    | Raise e => ([], s1, Abort e)
    | Ok None =>
        ([NotFound],
         {| check_count := check_count s1; last_roi := last_roi s1;
            roi_progression := roi_progression s1;
            position_closed := true; threshold := threshold s1 |},
         Break)
    | Ok (Some pos) =>
        match measure pos with
        | Raise e => ([], s1, Abort e)
        | Ok (roi, limit) =>
            let gap := (limit - roi)%Q in
            let samples := roi_progression s1 ++ [(stamp o, roi)] in
            if Qle_bool limit roi then
              ([ThresholdHit roi limit; Sleep 5],
               {| check_count := check_count s1; last_roi := last_roi s1;
                  roi_progression := samples;
                  position_closed := true; threshold := Some limit |},
               Break)
            else
              ([Status roi gap; Sleep CHECK_INTERVAL],
               {| check_count := check_count s1; last_roi := Some roi;
                  roi_progression := samples;
                  position_closed := position_closed s1;
                  threshold := Some limit |},
               Continue)
        end
    end.

(** The loop over the passes the trace provides.  [None] as third
    component: the trace ended while the loop was still running. *)
Fixpoint loop (trace : list observation) (s : session)
  : list event * session * option control :=
  match trace with
  | [] => ([], s, None)
  | o :: rest =>
      match iteration o s with
      | (out, s', Continue) =>
          let '(out', s'', c) := loop rest s' in (out ++ out', s'', c)
      | (out, s', c) => (out, s', Some c)
      end
  end.

(** The state in which [main] leaves the session: [ACTIVE] while the loop
    runs, the terminal state its final report announces, or [FAILED] when
    an exception reaches the handler of lines 199-204. *)
Inductive state : Type :=
| ACTIVE
| CLOSED_CONFIRMED
| CLOSED_UNCONFIRMED
| TIMED_OUT
| FAILED (e : exn).

(** Lines 189-192: the progression is listed when it is not empty. *)
Definition progression (s : session) : list event :=
  match roi_progression s with
  | [] => []
  | samples => [Progression samples]
  end.

(** Lines 162-194, the final report. *)
Definition final_report (s : session) (log : log_file) : list event * state :=
  if position_closed s then
    match last_roi s with
    | None => ([SessionComplete; PositionClosed], FAILED TypeError)
    | Some r =>
        let head := [SessionComplete; PositionClosed; FinalRoi r (check_count s)] in
        match check_server_log log with
        | Some entry =>
            (head ++ [Confirmed (String.substring 0 200 entry)] ++ progression s,
             CLOSED_CONFIRMED)
        | None =>
            (head ++ [CheckServerLog] ++ progression s, CLOSED_UNCONFIRMED)
        end
    end
  else
    match last_roi s with
    | Some r =>
        if Qeq_bool r 0 then
          ([SessionComplete; NoThresholdHit] ++ progression s, TIMED_OUT)
        else
          match threshold s with
          | Some limit =>
              ([SessionComplete; NoThresholdHit; LastRoi r (limit - r)%Q]
                 ++ progression s, TIMED_OUT)
          | None => ([SessionComplete; NoThresholdHit], FAILED UnboundLocalError)
          end
    | None =>
        ([SessionComplete; NoThresholdHit] ++ progression s, TIMED_OUT)
    end.

(** [main], lines 72-194, under the handler of lines 197-204.  The log is
    the file as [grep] finds it at the final report. *)
Definition main (trace : list observation) (log : log_file)
  : list event * session * state :=
  match loop trace start with
  | (out, s, Some (Abort e)) => (out, s, FAILED e)
  | (out, s, Some _) =>
      let '(out', st) := final_report s log in (out ++ out', s, st)
  | (out, s, None) => (out, s, ACTIVE)
  end.

(** A pass before the time limit that finds the position with its ROI
    below the threshold. *)
Definition below_threshold (o : observation) : Prop :=
  (elapsed o <= MAX_MONITORING_TIME)%Q /\
  exists pos roi limit,
    find_sqdusdt_position (snapshot o) = Ok (Some pos) /\
    measure pos = Ok (roi, limit) /\
    (roi < limit)%Q.

(** The snapshot query succeeded and the symbol is in the snapshot. *)
Definition found (o : observation) : bool :=
  match find_sqdusdt_position (snapshot o) with
  | Ok (Some _) => true
  | _ => false
  end.

(** Lines 145-155: the bar of the status line. *)
Definition status_bar (roi : Q) : string :=
  if negb (Qle_bool 6 roi) then "░░░░░░░░░░"
  else if negb (Qle_bool 7 roi) then "██░░░░░░░░"
  else if negb (Qle_bool 7.5 roi) then "████░░░░░░"
  else if negb (Qle_bool 8 roi) then "██████░░░░"
  else "██████████".

(** What a line of a session can show; the bounds are proved below. *)
Definition within_bounds (e : event) : Prop :=
  match e with
  | ThresholdHit roi limit => limit = 8%Q /\ (8 <= roi)%Q
  | Status roi gap =>
      (roi < 8)%Q /\ (0 < gap)%Q /\ status_bar roi <> "██████████"%string
  | Sleep seconds => seconds = 5%Q \/ seconds = CHECK_INTERVAL
  | FinalRoi roi _ => (roi < 8)%Q
  | LastRoi roi need => (roi < 8)%Q /\ (0 < need)%Q
  | Confirmed entry => (String.length entry <= 200)%nat
  | _ => True
  end.

(** The lines that only the final report prints. *)
Definition report_line (e : event) : bool :=
  match e with
  | SessionComplete | PositionClosed | FinalRoi _ _ | Confirmed _
  | CheckServerLog | NoThresholdHit | LastRoi _ _ | Progression _ => true
  | _ => false
  end.

End Monitor.

(** ** monitor_sqdusdt_live.py *)

Module Live.

Definition THRESHOLD : Q := 8%Q.
Definition FEE_RATE : Q := 0.0004%Q.
Definition CHECK_INTERVAL : Q := 5%Q.

(** Lines 33-48: returns [roi] alone; [float(leverage)] is the identity on
    a number. *)
Definition calculate_roi (entry current qty : Q) (side : string) (leverage : Q)
  : result Q :=
  let gross_pnl :=
    if String.eqb side "LONG" then ((current - entry) * qty)%Q
    else ((entry - current) * qty)%Q in
  let notional := (qty * entry)%Q in
  let fees := ((notional * FEE_RATE) + (current * qty * FEE_RATE))%Q in
  let net_pnl := (gross_pnl - fees)%Q in
  if Qle_bool notional 0 then Ok 0%Q
  else
    q ← pydiv (net_pnl * leverage) notional;
    Ok (q * 100)%Q.

(** The first component of what [check_logs_for_success] returns:
    [False], [True] or ['closing']. *)
Inductive status : Type :=
| SFalse
| STrue
| SClosing.

(** [if success:]. *)
Definition truthy (st : status) : bool :=
  match st with
  | SFalse => false
  | STrue | SClosing => true
  end.

(** Lines 60-61 and 69-70, the body of each [try]: the parsed line when
    its [fields.symbol] is SQDUSDT. *)
Definition tracked_record (line : log_line) : result (option json) :=
  data ← json_loads line;
  fields ← json_get data "fields" (JDict []);
  sym ← json_get fields "symbol" JNull;
  Ok (if json_is_string sym "SQDUSDT" then Some data else None).

(** [try: ... except: pass] around it. *)
Definition tracked_data (line : log_line) : option json :=
  match tracked_record line with
  | Ok found => found
  | Raise _ => None
  end.

Definition mentions_full_close (line : log_line) : bool :=
  contains "full close order placed" (lower (text line))
  && contains "SQDUSDT" (text line).

Definition mentions_closing (line : log_line) : bool :=
  contains "Ginie closing position" (text line)
  && contains "SQDUSDT" (text line).

(** Lines 58-73, the body of the [for] loop: [Some] when it returns. *)
Definition examine (line : log_line) : option (status * json) :=
  match (if mentions_full_close line then tracked_data line else None) with
  | Some data => Some (STrue, data)
  | None =>
      match (if mentions_closing line then tracked_data line else None) with
      | Some data => Some (SClosing, data)
      | None => None
      end
  end.

(** The [for] loop of line 57 over the lines it is given. *)
Fixpoint scan (lines : list log_line) : status * option json :=
  match lines with
  | [] => (SFalse, None)
  | line :: rest =>
      match examine line with
      | Some (st, data) => (st, Some data)
      | None => scan rest
      end
  end.

(** [lines[-500:]]. *)
Definition window (lines : list log_line) : list log_line :=
  drop (length lines - 500) lines.

(** Lines 50-78. *)
Definition check_logs_for_success (log : log_file) : status * option json :=
  match log with
  | None => (SFalse, None)
  | Some lines => scan (rev (window lines))
  end.

(** The local variables of [main], lines 102-105. *)
Record session : Type := mkSession {
  check_count : nat;
  last_roi : option Q;
  roi_history : list Q
}.

Definition start : session :=
  {| check_count := 0; last_roi := None; roi_history := [] |}.

(** What one pass of the loop reads from outside: the answer of
    [get_positions()] at line 114 and the log file as
    [check_logs_for_success] finds it in that pass. *)
Record observation : Type := mkObservation {
  snapshot : response;
  server_log : log_file
}.

(** The lines the script prints, and its sleeps, without their layout. *)
Inductive event : Type :=
| FetchFailed                                   (* line 116 *)
| ClosedNotFound                                (* line 129 *)
| Success (data : json) (final : option Q)      (* lines 136-140 *)
| Completed                                     (* lines 144-146 *)
| Hit (roi : Q) (close_status : status)         (* line 171 *)
| Critical (roi gap : Q)                        (* line 173 *)
| Close (roi gap : Q)                           (* line 175 *)
| Progress (roi gap progress : Q)               (* lines 177-178 *)
| Error (e : exn)                               (* line 189 *)
| Sleep (seconds : Q).                          (* lines 117, 181, 190 *)

Inductive control : Type :=
| Continue
| Break.

(** Lines 123-126. *)
Fixpoint find_in (positions : list Position) : result (option Position) :=
  match positions with
  | [] => Ok None
  | pos :: rest =>
      sym ← key "symbol" (symbol pos);
      if String.eqb sym "SQDUSDT" then Ok (Some pos) else find_in rest
  end.

(** Lines 150-155. *)
Definition measure (pos : Position) : result Q :=
  entry ← key "entry_price" (entry_price pos);
  current ← key "highest_price" (highest_price pos);
  qty ← key "remaining_qty" (remaining_qty pos);
  lev ← key "leverage" (leverage pos);
  sd ← key "side" (side pos);
  calculate_roi entry current qty sd lev.

(** Lines 170-178. *)
Definition display (roi : Q) (close_status : status) : event :=
  let gap := (THRESHOLD - roi)%Q in
  if Qle_bool THRESHOLD roi then Hit roi close_status
  else if Qle_bool gap 0.5 then Critical roi gap
  else if Qle_bool gap 1 then Close roi gap
  else Progress roi gap ((roi / THRESHOLD) * 100)%Q.

(** One pass of the [while True] loop, lines 107-190, with its handler
    for [Exception].  [KeyboardInterrupt] is not part of an observation. *)
Definition tick (o : observation) (s : session) : list event * session * control :=
  let s1 := {| check_count := S (check_count s); last_roi := last_roi s;
               roi_history := roi_history s |} in
  let handler (e : exn) := ([Error e; Sleep CHECK_INTERVAL], s1, Continue) in
  match snapshot o with
  | NoData => ([FetchFailed; Sleep CHECK_INTERVAL], s1, Continue)
  | NonDict => handler AttributeError
  | Data positions =>
      match find_in positions with
      | Raise e => handler e
      | Ok None =>
          let '(success, log_data) := check_logs_for_success (server_log o) in
          let report :=
            match truthy success, log_data with
            | true, Some data => [Success data (last_roi s1)]
            | _, _ => []
            end in
          ([ClosedNotFound] ++ report ++ [Completed], s1, Break)
      | Ok (Some pos) =>
          match measure pos with
          | Raise e => handler e
          | Ok roi =>
              let '(close_status, _) := check_logs_for_success (server_log o) in
              ([display roi close_status; Sleep CHECK_INTERVAL],
               {| check_count := check_count s1; last_roi := Some roi;
                  roi_history := roi_history s1 ++ [roi] |},
               Continue)
          end
      end
  end.

(** The loop over the passes the trace provides; [None]: the trace ended
    while the loop was still running. *)
Fixpoint loop (trace : list observation) (s : session)
  : list event * session * option control :=
  match trace with
  | [] => ([], s, None)
  | o :: rest =>
      match tick o s with
      | (out, s', Continue) =>
          let '(out', s'', c) := loop rest s' in (out ++ out', s'', c)
      | (out, s', Break) => (out, s', Some Break)
      end
  end.

Definition main (trace : list observation) : list event * session * option control :=
  loop trace start.

(** The state a pass leaves the watcher in, read off what it printed: the
    loop goes on ([ACTIVE], or [THRESHOLD_HIT] when the pass printed the
    hit), or it ended with or without the success report. *)
Inductive state : Type :=
| ACTIVE
| THRESHOLD_HIT
| CLOSED_CONFIRMED
| CLOSED_UNCONFIRMED.

Definition is_success (e : event) : bool :=
  match e with
  | Success _ _ => true
  | _ => false
  end.

Definition is_hit (e : event) : bool :=
  match e with
  | Hit _ _ => true
  | _ => false
  end.

Definition state_after (r : list event * session * control) : state :=
  match r with
  | (out, _, Break) =>
      if existsb is_success out then CLOSED_CONFIRMED else CLOSED_UNCONFIRMED
  | (out, _, Continue) =>
      if existsb is_hit out then THRESHOLD_HIT else ACTIVE
  end.

(** The tracked symbol as a structured field of a parsed line:
    [data['fields']['symbol'] == 'SQDUSDT']. *)
Definition symbol_field_is_tracked (data : json) : Prop :=
  exists items fields,
    data = JDict items /\
    assoc "fields" items = Some (JDict fields) /\
    assoc "symbol" fields = Some (JString "SQDUSDT").

(** The phrase that goes with each status. *)
Definition marker (st : status) (line : log_line) : Prop :=
  match st with
  | STrue => mentions_full_close line = true
  | SClosing => mentions_closing line = true
  | SFalse => False
  end.

Definition is_match (line : log_line) : bool :=
  match examine line with
  | Some _ => true
  | None => false
  end.

(** The snapshot query succeeded and the symbol is not in the snapshot. *)
Definition absent (o : observation) : Prop :=
  exists positions, snapshot o = Data positions /\ find_in positions = Ok None.

(** Lines 80-91. *)
Definition print_status_bar (roi : Q) : string :=
  if negb (Qle_bool 2 roi) then "░░░░░░░░░░"
  else if negb (Qle_bool 4 roi) then "██░░░░░░░░"
  else if negb (Qle_bool 6 roi) then "████░░░░░░"
  else if negb (Qle_bool 8 roi) then "██████░░░░"
  else "██████████".

End Live.

(** ** Sample inputs *)

Module Sample.

Definition quote : string := String (ascii_of_nat 34) EmptyString.

(** [quoted s] is [s] between double quotes, as in a JSON text. *)
Definition quoted (s : string) : string := String.app quote (String.app s quote).

Definition cat (parts : list string) : string := fold_right String.app EmptyString parts.

(** A structured line of the engine that announces the close. *)
Definition closing_line : log_line :=
  {| text := cat ["{"; quoted "message"; ":"; quoted "Ginie closing position"; ",";
                  quoted "fields"; ":{"; quoted "symbol"; ":"; quoted "SQDUSDT"; "}}"];
     parsed := Some (JDict [("message", JString "Ginie closing position");
                            ("fields", JDict [("symbol", JString "SQDUSDT")])]) |}.

(** A structured line that reports the placed close order. *)
Definition full_close_line : log_line :=
  {| text := cat ["{"; quoted "message"; ":"; quoted "Full close order placed"; ",";
                  quoted "fields"; ":{"; quoted "symbol"; ":"; quoted "SQDUSDT"; ",";
                  quoted "net_pnl"; ":1.25}}"];
     parsed := Some (JDict [("message", JString "Full close order placed");
                            ("fields", JDict [("symbol", JString "SQDUSDT");
                                              ("net_pnl", JNumber 1.25)])]) |}.

(** A close order of another symbol whose message names SQDUSDT. *)
Definition other_symbol_line : log_line :=
  {| text := cat ["{"; quoted "message"; ":";
                  quoted "Full close order placed, next in queue SQDUSDT"; ",";
                  quoted "fields"; ":{"; quoted "symbol"; ":"; quoted "BTCUSDT"; "}}"];
     parsed := Some (JDict [("message",
                             JString "Full close order placed, next in queue SQDUSDT");
                            ("fields", JDict [("symbol", JString "BTCUSDT")])]) |}.

(** Two lines of plain text, which [json.loads] rejects. *)
Definition plain_line : log_line :=
  {| text := "WARN SQDUSDT: skipped, not booking profit below threshold";
     parsed := None |}.

Definition plain_line_later : log_line :=
  {| text := "INFO sqdusdt Booking profit early based on ROI threshold";
     parsed := None |}.

(** SQDUSDT, long, entry 100, quantity 10, leverage 5, swing mode, at the
    given highest price. *)
Definition sqdusdt (highest : Q) : Position :=
  {| symbol := Some "SQDUSDT"; side := Some "LONG"; entry_price := Some 100%Q;
     highest_price := Some highest; remaining_qty := Some 10%Q;
     leverage := Some 5%Q; mode := Some "swing" |}.

Definition btcusdt : Position :=
  {| symbol := Some "BTCUSDT"; side := Some "SHORT"; entry_price := Some 60000%Q;
     highest_price := Some 59000%Q; remaining_qty := Some 0.01%Q;
     leverage := Some 10%Q; mode := Some "scalp" |}.

(** Passes of monitor_sqdusdt.py at [t] seconds. *)
Definition quiet_pass (t : Q) : Monitor.observation :=
  {| Monitor.elapsed := t; Monitor.stamp := "12:00:00";
     Monitor.snapshot := Data [btcusdt; sqdusdt 101] |}.

Definition hit_pass (t : Q) : Monitor.observation :=
  {| Monitor.elapsed := t; Monitor.stamp := "12:00:10";
     Monitor.snapshot := Data [btcusdt; sqdusdt 110] |}.

Definition failed_pass (t : Q) : Monitor.observation :=
  {| Monitor.elapsed := t; Monitor.stamp := "12:00:20"; Monitor.snapshot := NoData |}.

Definition absent_pass (t : Q) : Monitor.observation :=
  {| Monitor.elapsed := t; Monitor.stamp := "12:00:30";
     Monitor.snapshot := Data [btcusdt] |}.

(** Passes of monitor_sqdusdt_live.py. *)
Definition live_pass (data : response) (log : log_file) : Live.observation :=
  {| Live.snapshot := data; Live.server_log := log |}.

(** A record of SQDUSDT without its leverage. *)
Definition without_leverage : Position :=
  {| symbol := Some "SQDUSDT"; side := Some "LONG"; entry_price := Some 100%Q;
     highest_price := Some 110%Q; remaining_qty := Some 10%Q;
     leverage := None; mode := Some "swing" |}.

End Sample.

(** * Properties of the ROI calculator *)

Section CalculatorFacts.

Local Open Scope Q_scope.

Lemma Qle_bool_false (a b : Q) : b < a -> Qle_bool a b = false.
Proof.
  intros H. destruct (Qle_bool a b) eqn:E; [|reflexivity].
  apply Qle_bool_iff in E. exfalso. exact (Qlt_not_le _ _ H E).
Qed.

Lemma Qle_bool_true (a b : Q) : a <= b -> Qle_bool a b = true.
Proof. intros H. now apply Qle_bool_iff. Qed.

Lemma Qeq_bool_false (a b : Q) : ~ a == b -> Qeq_bool a b = false.
Proof.
  intros H. destruct (Qeq_bool a b) eqn:E; [|reflexivity].
  apply Qeq_bool_iff in E. contradiction.
Qed.

(** The division of line 29 raises on a zero notional: the guard of line
    26 is what keeps it from running. *)
Lemma pydiv_zero (a n : Q) : n == 0 -> pydiv a n = Raise ZeroDivisionError.
Proof.
  intros H. unfold pydiv. now rewrite (proj2 (Qeq_bool_iff n 0) H).
Qed.

Lemma pydiv_positive (a n : Q) : 0 < n -> pydiv a n = Ok (a / n).
Proof.
  intros H. unfold pydiv. rewrite Qeq_bool_false; [reflexivity|].
  intros E. rewrite E in H. exact (Qlt_irrefl _ H).
Qed.

(** On a positive notional the calculator returns the two formulas. *)
Lemma calculate_roi_positive (fee entry current qty : Q) (sd : string) (lev : Q) :
  0 < qty * entry ->
  RoiMonitor.calculate_roi_at fee entry current qty sd lev =
    Ok ((RoiMonitor.gross_pnl entry current qty sd
          - (qty * entry * fee + current * qty * fee)) * lev / (qty * entry) * 100,
        RoiMonitor.gross_pnl entry current qty sd
          - (qty * entry * fee + current * qty * fee)).
Proof.
  intros H. unfold RoiMonitor.calculate_roi_at.
  rewrite (Qle_bool_false _ _ H), (pydiv_positive _ _ H). reflexivity.
Qed.

Lemma calculate_roi_guard (fee entry current qty : Q) (sd : string) (lev : Q) :
  qty * entry <= 0 ->
  RoiMonitor.calculate_roi_at fee entry current qty sd lev = Ok (0, 0).
Proof.
  intros H. unfold RoiMonitor.calculate_roi_at.
  now rewrite (Qle_bool_true _ _ H).
Qed.

(** The three copies of the calculator return the same ROI. *)
Lemma monitor_calculate_roi (entry current qty : Q) (sd : string) (lev : Q) :
  Monitor.calculate_roi entry current qty sd lev =
    (r ← RoiMonitor.calculate_roi entry current qty sd lev; Ok (fst r)).
Proof.
  unfold Monitor.calculate_roi, RoiMonitor.calculate_roi,
    RoiMonitor.calculate_roi_at, RoiMonitor.gross_pnl,
    Monitor.FEE_RATE, RoiMonitor.FEE_RATE.
  destruct (Qle_bool (qty * entry) 0); [reflexivity|].
  destruct (pydiv _ _); reflexivity.
Qed.

Lemma live_calculate_roi (entry current qty : Q) (sd : string) (lev : Q) :
  Live.calculate_roi entry current qty sd lev =
    Monitor.calculate_roi entry current qty sd lev.
Proof. reflexivity. Qed.

(** The calculator never raises. *)
Lemma calculate_roi_total (fee entry current qty : Q) (sd : string) (lev : Q) :
  exists roi net_pnl,
    RoiMonitor.calculate_roi_at fee entry current qty sd lev = Ok (roi, net_pnl).
Proof.
  destruct (Qlt_le_dec 0 (qty * entry)) as [H|H].
  - rewrite (calculate_roi_positive _ _ _ _ _ _ H). eauto.
  - rewrite (calculate_roi_guard _ _ _ _ _ _ H). eauto.
Qed.

End CalculatorFacts.

Section CalculatorClaims.

Local Open Scope Q_scope.

(** C4: on the fixture entry=100, reference=110, quantity=10, LONG,
    leverage=5 with the fee rate 0.0004, [calculate_roi] returns
    roi = 49.58 and net_pnl = 99.16; the intermediate values are
    gross_pnl = 100, fees = 0.84 and notional = 1000.  Evaluated in
    binary64 the function returns the doubles nearest to 49.58 and 99.16. *)
Theorem calculate_roi_fixture :
  (exists roi net_pnl,
      RoiMonitor.calculate_roi 100 110 10 "LONG" 5 = Ok (roi, net_pnl) /\
      roi == 49.58 /\ net_pnl == 99.16) /\
  RoiMonitor.gross_pnl 100 110 10 "LONG" == 100 /\
  10 * 100 * RoiMonitor.FEE_RATE + 110 * 10 * RoiMonitor.FEE_RATE == 0.84 /\
  10 * 100 == 1000 /\
  RoiMonitor.calculate_roi_b64 100 110 10 true 5 = (49.58%float, 99.16%float).
Proof.
  split; [|repeat split; reflexivity].
  unfold RoiMonitor.calculate_roi.
  rewrite calculate_roi_positive by reflexivity.
  eexists _, _. split; [reflexivity|]. split; reflexivity.
Qed.

(** C5: with leverage = 0 or with a non-positive notional
    (remaining_quantity * entry_price <= 0), for any side, the calculator
    returns roi = 0, and net_pnl = 0 too when the notional is not positive;
    it returns a value in every case (no ZeroDivisionError), and with a
    non-positive notional it returns at the guard, before the division. *)
Theorem calculate_roi_degenerate (fee entry current qty : Q) (sd : string) (lev : Q) :
  lev == 0 \/ qty * entry <= 0 ->
  (exists roi net_pnl,
      RoiMonitor.calculate_roi_at fee entry current qty sd lev = Ok (roi, net_pnl) /\
      roi == 0 /\
      (qty * entry <= 0 -> net_pnl == 0)) /\
  (qty * entry <= 0 ->
      RoiMonitor.calculate_roi_at fee entry current qty sd lev = Ok (0, 0)) /\
  (exists roi, Monitor.calculate_roi entry current qty sd lev = Ok roi /\ roi == 0).
Proof.
  intros H.
  assert (Hmain : exists roi net_pnl,
      RoiMonitor.calculate_roi_at fee entry current qty sd lev = Ok (roi, net_pnl) /\
      roi == 0 /\ (qty * entry <= 0 -> net_pnl == 0)).
  { destruct (Qlt_le_dec 0 (qty * entry)) as [Hpos|Hneg].
    - destruct H as [Hlev|Hneg]; [|exfalso; exact (Qlt_not_le _ _ Hpos Hneg)].
      rewrite (calculate_roi_positive _ _ _ _ _ _ Hpos).
      eexists _, _. split; [reflexivity|]. split.
      + rewrite Hlev. unfold Qdiv. rewrite Qmult_0_r, !Qmult_0_l. reflexivity.
      + intros Hneg. exfalso. exact (Qlt_not_le _ _ Hpos Hneg).
    - rewrite (calculate_roi_guard _ _ _ _ _ _ Hneg).
      eexists _, _. split; [reflexivity|]. split; [reflexivity|].
      intros _. reflexivity. }
  split; [exact Hmain|]. split; [apply calculate_roi_guard|].
  rewrite monitor_calculate_roi. unfold RoiMonitor.calculate_roi.
  destruct (Qlt_le_dec 0 (qty * entry)) as [Hpos|Hneg].
  - destruct H as [Hlev|Hneg]; [|exfalso; exact (Qlt_not_le _ _ Hpos Hneg)].
    rewrite (calculate_roi_positive _ _ _ _ _ _ Hpos).
    eexists. split; [reflexivity|]. simpl.
    rewrite Hlev. unfold Qdiv. rewrite Qmult_0_r, !Qmult_0_l. reflexivity.
  - rewrite (calculate_roi_guard _ _ _ _ _ _ Hneg).
    eexists. split; reflexivity.
Qed.

Lemma calculate_roi_degenerate_witness :
  (exists roi net_pnl,
      RoiMonitor.calculate_roi_at 0.0004 0 110 10 "SHORT" 5 = Ok (roi, net_pnl) /\
      roi == 0 /\
      (10 * 0 <= 0 -> net_pnl == 0)) /\
  (10 * 0 <= 0 ->
      RoiMonitor.calculate_roi_at 0.0004 0 110 10 "SHORT" 5 = Ok (0, 0)) /\
  (exists roi, Monitor.calculate_roi 0 110 10 "SHORT" 5 = Ok roi /\ roi == 0).
Proof.
  apply (calculate_roi_degenerate 0.0004 0 110 10 "SHORT" 5).
  right. vm_compute. discriminate.
Defined.

(** C8 as stated fails at leverage = 0: with entry = 100, qty = 10 and the
    fee rate 0.0004, all positive, and leverage = 0, the calculator at the
    breakeven price returns roi = 0, which is not below 0. *)
Lemma breakeven_leverage_zero :
  0 < 100 /\ 0 < 10 /\ 0 < 0.0004 /\ 0 <= 0 /\
  exists roi net_pnl,
    RoiMonitor.calculate_roi_at 0.0004 100 100 10 "LONG" 0 = Ok (roi, net_pnl) /\
    roi == 0 /\ ~ roi < 0.
Proof.
  repeat split; try discriminate.
  rewrite calculate_roi_positive by reflexivity.
  eexists _, _. split; [reflexivity|]. split; [reflexivity|].
  vm_compute. discriminate.
Qed.

(** C8, amended: for every entry > 0, qty > 0, fee rate > 0 and every
    leverage > 0, the calculator at the breakeven price (reference = entry,
    side LONG) returns roi < 0 and net_pnl < 0. *)
Theorem breakeven_loss (entry qty fee lev : Q) :
  0 < entry -> 0 < qty -> 0 < fee -> 0 < lev ->
  exists roi net_pnl,
    RoiMonitor.calculate_roi_at fee entry entry qty "LONG" lev = Ok (roi, net_pnl) /\
    roi < 0 /\ net_pnl < 0.
Proof.
  intros He Hq Hf Hl.
  assert (Hn : 0 < qty * entry) by (apply Qmult_lt_0_compat; assumption).
  rewrite (calculate_roi_positive _ _ _ _ _ _ Hn).
  eexists _, _. split; [reflexivity|].
  unfold RoiMonitor.gross_pnl. simpl String.eqb. cbv iota.
  set (net := (entry - entry) * qty - (qty * entry * fee + entry * qty * fee)).
  assert (Hnet : net < 0).
  { assert (Hfee : 0 < qty * entry * fee) by (apply Qmult_lt_0_compat; assumption).
    unfold net. lra. }
  split; [|exact Hnet].
  assert (Hinv : 0 < / (qty * entry)) by (apply Qinv_lt_0_compat; exact Hn).
  assert (Hx : 0 < (- net) * lev) by (apply Qmult_lt_0_compat; lra).
  assert (Hy : 0 < (- net) * lev * / (qty * entry))
    by (apply Qmult_lt_0_compat; assumption).
  unfold Qdiv. lra.
Qed.

Lemma breakeven_loss_witness :
  exists roi net_pnl,
    RoiMonitor.calculate_roi_at 0.0004 100 100 10 "LONG" 5 = Ok (roi, net_pnl) /\
    roi < 0 /\ net_pnl < 0.
Proof.
  apply (breakeven_loss 100 10 0.0004 5); reflexivity.
Defined.

(** C10: for every side other than the exact string "LONG" the calculator
    uses the SHORT formula: the gross PnL is (entry - reference) * quantity,
    and on a positive notional it returns
    net_pnl = (entry - reference) * quantity - fees and
    roi = net_pnl * leverage / notional * 100 with
    fees = notional * fee + reference * quantity * fee, and (0, 0) on a
    notional that is not positive; it never raises, so an unknown side has
    no error path.  The copies in monitor_sqdusdt.py and
    monitor_sqdusdt_live.py return the same ROI formula. *)
Theorem unknown_side_is_short (fee entry current qty : Q) (sd : string) (lev : Q) :
  sd <> "LONG"%string ->
  RoiMonitor.gross_pnl entry current qty sd = (entry - current) * qty /\
  (0 < qty * entry ->
   RoiMonitor.calculate_roi_at fee entry current qty sd lev =
     Ok (((entry - current) * qty - (qty * entry * fee + current * qty * fee))
           * lev / (qty * entry) * 100,
         (entry - current) * qty - (qty * entry * fee + current * qty * fee))) /\
  (qty * entry <= 0 ->
   RoiMonitor.calculate_roi_at fee entry current qty sd lev = Ok (0, 0)) /\
  RoiMonitor.calculate_roi_at fee entry current qty sd lev =
    RoiMonitor.calculate_roi_at fee entry current qty "SHORT" lev /\
  (exists roi net_pnl,
      RoiMonitor.calculate_roi_at fee entry current qty sd lev = Ok (roi, net_pnl)) /\
  (0 < qty * entry ->
   Monitor.calculate_roi entry current qty sd lev =
     Ok (((entry - current) * qty
            - (qty * entry * Monitor.FEE_RATE + current * qty * Monitor.FEE_RATE))
           * lev / (qty * entry) * 100) /\
   Live.calculate_roi entry current qty sd lev =
     Ok (((entry - current) * qty
            - (qty * entry * Live.FEE_RATE + current * qty * Live.FEE_RATE))
           * lev / (qty * entry) * 100)) /\
  (qty * entry <= 0 ->
   Monitor.calculate_roi entry current qty sd lev = Ok 0 /\
   Live.calculate_roi entry current qty sd lev = Ok 0) /\
  Live.calculate_roi entry current qty sd lev =
    Live.calculate_roi entry current qty "SHORT" lev.
Proof.
  intros Hsd.
  assert (E : String.eqb sd "LONG" = false) by (now apply String.eqb_neq).
  assert (Eg : RoiMonitor.gross_pnl entry current qty sd = (entry - current) * qty)
    by (unfold RoiMonitor.gross_pnl; now rewrite E).
  split; [exact Eg|].
  split; [intros Hn; rewrite (calculate_roi_positive _ _ _ _ _ _ Hn), Eg; reflexivity|].
  split; [apply calculate_roi_guard|].
  split; [unfold RoiMonitor.calculate_roi_at, RoiMonitor.gross_pnl; now rewrite E|].
  split; [apply calculate_roi_total|].
  split; [|split].
  - intros Hn. unfold Monitor.calculate_roi, Live.calculate_roi.
    rewrite E, (Qle_bool_false _ _ Hn), !(pydiv_positive _ _ Hn). split; reflexivity.
  - intros Hn. unfold Monitor.calculate_roi, Live.calculate_roi.
    rewrite (Qle_bool_true _ _ Hn). split; reflexivity.
  - unfold Live.calculate_roi. now rewrite E.
Qed.

Lemma unknown_side_is_short_witness :
  RoiMonitor.calculate_roi_at 0.0004 100 110 10 "long" 5 =
    Ok (((100 - 110) * 10 - (10 * 100 * 0.0004 + 110 * 10 * 0.0004))
          * 5 / (10 * 100) * 100,
        (100 - 110) * 10 - (10 * 100 * 0.0004 + 110 * 10 * 0.0004)) /\
  Live.calculate_roi 100 110 10 "long" 5 =
    Ok (((100 - 110) * 10
           - (10 * 100 * Live.FEE_RATE + 110 * 10 * Live.FEE_RATE))
          * 5 / (10 * 100) * 100).
Proof.
  assert (Hside : "long"%string <> "LONG"%string) by discriminate.
  assert (Hn : 0 < 10 * 100) by reflexivity.
  pose proof (unknown_side_is_short 0.0004 100 110 10 "long" 5 Hside)
    as (_ & Hr & _ & _ & _ & Hl & _).
  split; [exact (Hr Hn)|exact (proj2 (Hl Hn))].
Defined.

End CalculatorClaims.

(** * Properties of the threshold lookup *)

Section ThresholdClaims.

Local Open Scope Q_scope.

Lemma roi_monitor_thresholds_dom (md : string) (pct : Q) :
  RoiMonitor.THRESHOLDS !! md = Some pct <->
  (md = "ultra_fast" /\ pct = 3) \/ (md = "scalp" /\ pct = 5) \/
  (md = "swing" /\ pct = 8) \/ (md = "position" /\ pct = 10).
Proof.
  unfold RoiMonitor.THRESHOLDS. split.
  - intros H.
    repeat (apply lookup_insert_Some in H as [[<- <-]|[_ H]]; [tauto|]).
    apply lookup_singleton_Some in H as [<- <-]. tauto.
  - intros [[-> ->]|[[-> ->]|[[-> ->]|[-> ->]]]]; reflexivity.
Qed.

(** C9: the lookup [table.get(mode, default)] returns the configured
    percentage when the mode is in the table and the default when it is
    not; it is a total function, so no mode makes it raise.  For the table
    of roi_monitor.py: 3, 5, 8 and 10 percent for ultra_fast, scalp, swing
    and position, and 8 percent for every other mode; for the table of
    monitor_sqdusdt.py: 8 percent for every mode. *)
Theorem threshold_lookup (table : gmap string Q) (default : Q) (md : string) :
  (forall pct, table !! md = Some pct -> dict_get table md default = pct) /\
  (table !! md = None -> dict_get table md default = default) /\
  (exists pct, dict_get table md default = pct) /\
  RoiMonitor.threshold_for "ultra_fast" = 3 /\
  RoiMonitor.threshold_for "scalp" = 5 /\
  RoiMonitor.threshold_for "swing" = 8 /\
  RoiMonitor.threshold_for "position" = 10 /\
  (md <> "ultra_fast"%string -> md <> "scalp"%string -> md <> "swing"%string ->
   md <> "position"%string -> RoiMonitor.threshold_for md = 8) /\
  dict_get Monitor.THRESHOLDS md 8 = 8.
Proof.
  split; [intros pct H; unfold dict_get; now rewrite H|].
  split; [intros H; unfold dict_get; now rewrite H|].
  split; [eexists; reflexivity|].
  repeat (split; [reflexivity|]).
  split.
  - intros H1 H2 H3 H4. unfold RoiMonitor.threshold_for, dict_get.
    destruct (RoiMonitor.THRESHOLDS !! md) as [pct|] eqn:E; [|reflexivity].
    apply roi_monitor_thresholds_dom in E. intuition congruence.
  - unfold dict_get, Monitor.THRESHOLDS.
    destruct (({[ "swing"%string := 8 ]} : gmap string Q) !! md) as [pct|] eqn:E;
      [|reflexivity].
    apply lookup_singleton_Some in E as [_ <-]. reflexivity.
Qed.

Lemma threshold_lookup_witness :
  (forall pct, RoiMonitor.THRESHOLDS !! "scalp"%string = Some pct ->
      dict_get RoiMonitor.THRESHOLDS "scalp" 8 = pct) /\
  RoiMonitor.THRESHOLDS !! "scalp"%string = Some 5 /\
  (RoiMonitor.THRESHOLDS !! "grid"%string = None ->
      dict_get RoiMonitor.THRESHOLDS "grid" 8 = 8) /\
  RoiMonitor.THRESHOLDS !! "grid"%string = None /\
  RoiMonitor.threshold_for "grid" = 8.
Proof.
  split; [exact (proj1 (threshold_lookup RoiMonitor.THRESHOLDS 8 "scalp"))|].
  split; [reflexivity|].
  split; [exact (proj1 (proj2 (threshold_lookup RoiMonitor.THRESHOLDS 8 "grid")))|].
  split; [reflexivity|].
  apply (threshold_lookup RoiMonitor.THRESHOLDS 8 "grid"); discriminate.
Defined.

End ThresholdClaims.

(** * Properties of the text search *)

Section TextFacts.

Lemma append_nil (s : string) : String.append EmptyString s = s.
Proof. reflexivity. Qed.

Lemma append_cons (c : ascii) (a b : string) :
  String.append (String c a) b = String c (String.append a b).
Proof. reflexivity. Qed.

Lemma app_assoc_string (a b c : string) :
  String.append (String.append a b) c = String.append a (String.append b c).
Proof.
  induction a as [|x a IH]; [reflexivity|]. now rewrite !append_cons, IH.
Qed.

Lemma length_append_string (a b : string) :
  String.length (String.append a b) = (String.length a + String.length b)%nat.
Proof.
  induction a as [|x a IH]; [reflexivity|]. rewrite append_cons. simpl. now rewrite IH.
Qed.

Lemma strip_prefix_spec (p s rest : string) :
  strip_prefix p s = Some rest <-> s = String.append p rest.
Proof.
  revert s. induction p as [|a p IH]; intros s.
  - rewrite append_nil. simpl. split; [now intros [= ->]|now intros ->].
  - rewrite append_cons. destruct s as [|b s]; simpl; [split; discriminate|].
    destruct (Ascii.eqb_spec a b) as [->|Hne].
    + rewrite IH. split; [now intros ->|now intros [= ->]].
    + split; [discriminate|]. intros [= E _]. congruence.
Qed.

(** What [after] returns follows an occurrence of the needle. *)
Lemma after_sound (needle hay rest : string) :
  after needle hay = Some rest ->
  exists front, hay = String.append front (String.append needle rest).
Proof.
  induction hay as [|c hay IH]; simpl.
  - destruct (strip_prefix needle EmptyString) eqn:E; [|discriminate].
    intros [= ->]. apply strip_prefix_spec in E. now exists EmptyString.
  - destruct (strip_prefix needle (String c hay)) eqn:E.
    + intros [= ->]. apply strip_prefix_spec in E. now exists EmptyString.
    + intros H. destruct (IH H) as [front ->]. now exists (String c front).
Qed.

(** When two splits of a text end in [v] and in a shorter [r], [r] is the
    end of [v]. *)
Lemma shorter_suffix (u v w r : string) :
  String.append u v = String.append w r ->
  (String.length r <= String.length v)%nat ->
  exists x, v = String.append x r.
Proof.
  revert w. induction u as [|c u IH]; intros w.
  - rewrite append_nil. intros -> _. now exists w.
  - rewrite append_cons. destruct w as [|c' w].
    + rewrite append_nil. intros <- H. simpl in H.
      rewrite length_append_string in H. lia.
    + rewrite append_cons. intros [= _ E]. now apply IH with w.
Qed.

(** [after] finds the first occurrence: every text behind a later
    occurrence is the end of what it returns. *)
Lemma after_complete (needle front rest : string) :
  exists rest' x,
    after needle (String.append front (String.append needle rest)) = Some rest' /\
    rest' = String.append x rest.
Proof.
  induction front as [|c front IH].
  - rewrite append_nil. exists rest, EmptyString.
    assert (E : strip_prefix needle (String.append needle rest) = Some rest)
      by (now apply strip_prefix_spec).
    split; [|reflexivity].
    destruct (String.append needle rest); simpl; now rewrite E.
  - rewrite append_cons. simpl.
    destruct (strip_prefix needle
                (String c (String.append front (String.append needle rest))))
      as [r'|] eqn:E.
    + apply strip_prefix_spec in E.
      destruct (shorter_suffix needle r' (String.append (String c front) needle) rest)
        as [x Hx].
      * rewrite app_assoc_string, append_cons. now rewrite <- E.
      * apply (f_equal String.length) in E. simpl in E.
        rewrite !length_append_string in E. lia.
      * exists r', x. split; [reflexivity|exact Hx].
    + exact IH.
Qed.

Lemma contains_spec (needle hay : string) :
  contains needle hay = true <->
  exists front rest, hay = String.append front (String.append needle rest).
Proof.
  unfold contains. split.
  - destruct (after needle hay) as [rest|] eqn:E; [|discriminate].
    intros _. destruct (after_sound _ _ _ E) as [front ->]. eauto.
  - intros (front & rest & ->).
    destruct (after_complete needle front rest) as (r' & x & -> & _). reflexivity.
Qed.

(** The model of [grep -i 'sqdusdt.*booking profit'] accepts exactly the
    lines whose text, in lower case, holds "sqdusdt" and, somewhere behind
    it, "booking profit". *)
Lemma grep_match_spec (line : log_line) :
  Monitor.grep_match line = true <->
  exists a b c,
    lower (text line) =
      String.append a (String.append "sqdusdt"
        (String.append b (String.append "booking profit" c))).
Proof.
  unfold Monitor.grep_match. split.
  - destruct (after "sqdusdt" (lower (text line))) as [rest|] eqn:E; [|discriminate].
    intros H. apply contains_spec in H as (b & c & ->).
    destruct (after_sound _ _ _ E) as [a ->]. eauto.
  - intros (a & b & c & ->).
    destruct (after_complete "sqdusdt" a
                (String.append b (String.append "booking profit" c)))
      as (r' & x & -> & ->).
    apply contains_spec. exists (String.append x b), c.
    now rewrite app_assoc_string.
Qed.

End TextFacts.

(** * Properties of the closure correlation *)

Section LogFacts.

Lemma tracked_data_sound (line : log_line) (data : json) :
  Live.tracked_data line = Some data ->
  parsed line = Some data /\ Live.symbol_field_is_tracked data.
Proof.
  unfold Live.tracked_data, Live.tracked_record, json_loads.
  destruct (parsed line) as [v|]; simpl; [|discriminate].
  destruct v as [| | | |?|items]; simpl; try discriminate.
  destruct (assoc "fields" items) as [f|] eqn:Ef; simpl.
  - destruct f as [| | | |?|fields]; simpl; try discriminate.
    destruct (assoc "symbol" fields) as [sym|] eqn:Es; simpl; [|discriminate].
    destruct sym as [| | |s| |]; simpl; try discriminate.
    destruct (String.eqb_spec s "SQDUSDT") as [->|]; [|discriminate].
    intros [= <-]. split; [reflexivity|].
    exists items, fields. auto.
  - discriminate.
Qed.

Lemma tracked_data_complete (line : log_line) (data : json) :
  parsed line = Some data -> Live.symbol_field_is_tracked data ->
  Live.tracked_data line = Some data.
Proof.
  intros Hp (items & fields & -> & Hf & Hs).
  unfold Live.tracked_data, Live.tracked_record, json_loads.
  rewrite Hp. simpl. rewrite Hf. simpl. rewrite Hs. reflexivity.
Qed.

Lemma examine_sound (line : log_line) (st : Live.status) (data : json) :
  Live.examine line = Some (st, data) ->
  parsed line = Some data /\ Live.symbol_field_is_tracked data /\ Live.marker st line.
Proof.
  unfold Live.examine.
  destruct (Live.mentions_full_close line) eqn:Ef.
  - destruct (Live.tracked_data line) as [d|] eqn:Et.
    + intros [= <- <-]. apply tracked_data_sound in Et as [? ?]. auto.
    + destruct (Live.mentions_closing line) eqn:Ec; discriminate.
  - destruct (Live.mentions_closing line) eqn:Ec; [|discriminate].
    destruct (Live.tracked_data line) as [d|] eqn:Et; [|discriminate].
    intros [= <- <-]. apply tracked_data_sound in Et as [? ?]. auto.
Qed.

(** The phrase and the name in the text are not enough. *)
Lemma examine_needs_structure (line : log_line) :
  (forall data, parsed line = Some data -> ~ Live.symbol_field_is_tracked data) ->
  Live.examine line = None.
Proof.
  intros H. destruct (Live.examine line) as [[st data]|] eqn:E; [|reflexivity].
  apply examine_sound in E as (Hp & Hs & _). exfalso. exact (H _ Hp Hs).
Qed.

Lemma scan_found (lines : list log_line) (st : Live.status) (data : json) :
  Live.scan lines = (st, Some data) ->
  exists before line behind,
    lines = before ++ line :: behind /\
    Forall (fun l => Live.is_match l = false) before /\
    Live.examine line = Some (st, data).
Proof.
  induction lines as [|l lines IH]; simpl; [discriminate|].
  destruct (Live.examine l) as [[st' data']|] eqn:E.
  - intros [= <- <-]. exists [], l, lines. auto.
  - intros H. destruct (IH H) as (before & line & behind & -> & Hb & Hl).
    exists (l :: before), line, behind. repeat split; [|exact Hl].
    constructor; [|exact Hb]. unfold Live.is_match. now rewrite E.
Qed.

Lemma scan_first (before behind : list log_line) (line : log_line)
    (st : Live.status) (data : json) :
  Forall (fun l => Live.is_match l = false) before ->
  Live.examine line = Some (st, data) ->
  Live.scan (before ++ line :: behind) = (st, Some data).
Proof.
  intros Hb Hl. induction Hb as [|l before Hl' _ IH]; simpl.
  - now rewrite Hl.
  - unfold Live.is_match in Hl'. destruct (Live.examine l); [discriminate|exact IH].
Qed.

Lemma scan_nothing (lines : list log_line) :
  Forall (fun l => Live.is_match l = false) lines <-> Live.scan lines = (Live.SFalse, None).
Proof.
  induction lines as [|l lines IH]; simpl; [split; auto|].
  unfold Live.is_match at 1. split.
  - intros H. inversion H as [|? ? Hl Hr]; subst.
    unfold Live.is_match in Hl.
    destruct (Live.examine l) as [[? ?]|]; [discriminate|now apply IH].
  - destruct (Live.examine l) as [[? ?]|] eqn:E; [discriminate|].
    intros H. constructor; [unfold Live.is_match; now rewrite E|now apply IH].
Qed.

Lemma scan_status (lines : list log_line) :
  match Live.scan lines with
  | (Live.SFalse, None) => True
  | (Live.SFalse, Some _) => False
  | (_, Some _) => True
  | (_, None) => False
  end.
Proof.
  induction lines as [|l lines IH]; simpl; [exact I|].
  destruct (Live.examine l) as [[st data]|] eqn:E; [|exact IH].
  apply examine_sound in E as (_ & _ & Hm). destruct st; simpl in *; tauto.
Qed.

(** Lines older than the last 500 are outside the window. *)
Lemma window_recent (old recent : list log_line) :
  length recent = 500%nat -> Live.window (old ++ recent) = recent.
Proof.
  intros H. unfold Live.window. rewrite length_app, H.
  replace (length old + 500 - 500)%nat with (length old) by lia.
  apply drop_app_length.
Qed.

Lemma window_short (lines : list log_line) :
  (length lines <= 500)%nat -> Live.window lines = lines.
Proof.
  intros H. unfold Live.window.
  replace (length lines - 500)%nat with 0%nat by lia. reflexivity.
Qed.

End LogFacts.

Section LogClaims.

Lemma app_newline_nonempty (a rest : string) :
  String.app a (String.app newline rest) <> EmptyString.
Proof. destruct a; discriminate. Qed.

Lemma grep_stdout_empty (lines : list log_line) :
  Monitor.grep_stdout lines = EmptyString <->
  Forall (fun l => Monitor.grep_match l = false) lines.
Proof.
  induction lines as [|l lines IH]; simpl; [split; auto|].
  destruct (Monitor.grep_match l) eqn:E.
  - split.
    + intros H. exfalso. exact (app_newline_nonempty _ _ H).
    + intros H. inversion H; congruence.
  - rewrite IH. split; [intros H; constructor; assumption|].
    intros H. now inversion H.
Qed.

(** [check_server_log] confirms exactly when some line of the file matches
    the pattern of [grep]. *)
Lemma check_server_log_confirms (lines : list log_line) :
  Monitor.check_server_log (Some lines) <> None <->
  Exists (fun l => Monitor.grep_match l = true) lines.
Proof.
  unfold Monitor.check_server_log.
  rewrite Exists_exists. split.
  - intros H.
    destruct (Monitor.grep_stdout lines) eqn:E; [congruence|].
    assert (Hn : ~ Forall (fun l => Monitor.grep_match l = false) lines).
    { intros HF. apply grep_stdout_empty in HF. congruence. }
    apply not_Forall_Exists in Hn; [|intros l; apply _].
    apply Exists_exists in Hn as (l & Hin & Hl). exists l. split; [exact Hin|].
    destruct (Monitor.grep_match l) eqn:G; [reflexivity|exfalso; exact (Hl G)].
  - intros (l & Hin & Hl).
    destruct (Monitor.grep_stdout lines) eqn:E; [|discriminate].
    apply grep_stdout_empty in E. rewrite Forall_forall in E.
    specialize (E l Hin). congruence.
Qed.

(** C3 as stated fails for [check_server_log] of monitor_sqdusdt.py: a line
    of plain text, with no structured field at all, is reported as the
    confirmation because it contains the two words; and with two matching
    lines the output keeps both, the older one first. *)
Lemma grep_confirms_plain_text :
  Monitor.check_server_log (Some [Sample.plain_line]) =
    Some (String.app (text Sample.plain_line) newline) /\
  parsed Sample.plain_line = None /\
  Live.is_match Sample.plain_line = false /\
  Monitor.check_server_log (Some [Sample.plain_line; Sample.plain_line_later]) =
    Some (String.app (text Sample.plain_line)
            (String.app newline (String.app (text Sample.plain_line_later) newline))).
Proof. repeat split; vm_compute; reflexivity. Qed.

(** C3, amended.  In monitor_sqdusdt_live.py, [check_logs_for_success]
    reports a match only for a line of the last 500 whose parsed
    [fields.symbol] equals SQDUSDT and whose text carries the phrase of the
    reported status; a line with phrase and name in its text but another
    structured symbol is no match; the reported line is the most recent
    match of the window, whatever older lines hold, and lines before the
    window are not read.  In monitor_sqdusdt.py, [check_server_log] reports
    a confirmation as soon as any line of the whole file matches the
    pattern of [grep]. *)
Theorem correlation_most_recent_structured (lines : list log_line) :
  (forall st data,
      Live.check_logs_for_success (Some lines) = (st, Some data) ->
      exists older line newer,
        Live.window lines = older ++ line :: newer /\
        parsed line = Some data /\
        Live.symbol_field_is_tracked data /\
        Live.marker st line /\
        Forall (fun l => Live.is_match l = false) newer) /\
  (forall older line newer st data,
      Live.window lines = older ++ line :: newer ->
      Live.examine line = Some (st, data) ->
      Forall (fun l => Live.is_match l = false) newer ->
      Live.check_logs_for_success (Some lines) = (st, Some data)) /\
  (forall line,
      (forall data, parsed line = Some data -> ~ Live.symbol_field_is_tracked data) ->
      Live.is_match line = false) /\
  (forall old,
      length lines = 500%nat ->
      Live.check_logs_for_success (Some (old ++ lines)) =
        Live.check_logs_for_success (Some lines)) /\
  (Monitor.check_server_log (Some lines) <> None <->
   Exists (fun l => Monitor.grep_match l = true) lines).
Proof.
  split; [|split; [|split; [|split]]].
  - intros st data H. simpl in H.
    apply scan_found in H as (before & line & behind & Hr & Hb & Hl).
    apply examine_sound in Hl as (Hp & Hs & Hm).
    exists (rev behind), line, (rev before). repeat split; try assumption.
    + rewrite <- (rev_involutive (Live.window lines)), Hr.
      rewrite rev_app_distr. simpl. now rewrite <- app_assoc.
    + now apply List.Forall_rev.
  - intros older line newer st data Hw Hl Hn. simpl.
    rewrite Hw, rev_app_distr. simpl. rewrite <- app_assoc. simpl.
    apply scan_first; [now apply List.Forall_rev|exact Hl].
  - intros line H. unfold Live.is_match.
    now rewrite (examine_needs_structure line H).
  - intros old H. simpl. rewrite (window_recent _ _ H).
    rewrite window_short by lia. reflexivity.
  - apply check_server_log_confirms.
Qed.

(** The newest structured match wins over an older one, and the close
    order of another symbol is skipped. *)
Lemma correlation_most_recent_structured_witness :
  Live.check_logs_for_success
    (Some [Sample.full_close_line; Sample.closing_line; Sample.other_symbol_line])
  = (Live.SClosing, parsed Sample.closing_line).
Proof.
  apply (proj1 (proj2 (correlation_most_recent_structured
           [Sample.full_close_line; Sample.closing_line; Sample.other_symbol_line]))
           [Sample.full_close_line] Sample.closing_line [Sample.other_symbol_line]).
  - reflexivity.
  - vm_compute. reflexivity.
  - repeat constructor.
Defined.

End LogClaims.

(** * Properties of the watcher of monitor_sqdusdt.py *)

Section MonitorFacts.

Local Open Scope Q_scope.

Import Monitor.

(** A pass behind the time limit ends the loop and reads no snapshot. *)
Lemma iteration_late (o : observation) (s : session) :
  MAX_MONITORING_TIME < elapsed o ->
  iteration o s = ([TimeLimit], s, Break).
Proof.
  intros H. unfold iteration. now rewrite (Qle_bool_false _ _ H).
Qed.

(** A pass that finds the position below its threshold goes on. *)
Lemma iteration_below (o : observation) (s : session) (pos : Position) (roi limit : Q) :
  elapsed o <= MAX_MONITORING_TIME ->
  find_sqdusdt_position (snapshot o) = Ok (Some pos) ->
  measure pos = Ok (roi, limit) ->
  roi < limit ->
  iteration o s =
    ([Status roi (limit - roi); Sleep CHECK_INTERVAL],
     {| check_count := S (check_count s); last_roi := Some roi;
        roi_progression := roi_progression s ++ [(stamp o, roi)];
        position_closed := position_closed s; threshold := Some limit |},
     Continue).
Proof.
  intros Ht Hf Hm Hlt. unfold iteration.
  rewrite (Qle_bool_true _ _ Ht), Hf, Hm. simpl.
  now rewrite (Qle_bool_false _ _ Hlt).
Qed.

(** A pass that finds the position at or above its threshold ends the loop
    with the position marked closed. *)
Lemma iteration_hit (o : observation) (s : session) (pos : Position) (roi limit : Q) :
  elapsed o <= MAX_MONITORING_TIME ->
  find_sqdusdt_position (snapshot o) = Ok (Some pos) ->
  measure pos = Ok (roi, limit) ->
  limit <= roi ->
  iteration o s =
    ([ThresholdHit roi limit; Sleep 5],
     {| check_count := S (check_count s); last_roi := last_roi s;
        roi_progression := roi_progression s ++ [(stamp o, roi)];
        position_closed := true; threshold := Some limit |},
     Break).
Proof.
  intros Ht Hf Hm Hle. unfold iteration.
  rewrite (Qle_bool_true _ _ Ht), Hf, Hm. simpl.
  now rewrite (Qle_bool_true _ _ Hle).
Qed.

(** A pass without the position ends the loop with the position marked
    closed, whether the snapshot lacks the symbol or the query failed. *)
Lemma iteration_not_found (o : observation) (s : session) :
  elapsed o <= MAX_MONITORING_TIME ->
  find_sqdusdt_position (snapshot o) = Ok None ->
  iteration o s =
    ([NotFound],
     {| check_count := S (check_count s); last_roi := last_roi s;
        roi_progression := roi_progression s;
        position_closed := true; threshold := threshold s |},
     Break).
Proof.
  intros Ht Hf. unfold iteration. now rewrite (Qle_bool_true _ _ Ht), Hf.
Qed.

Lemma below_threshold_found (o : observation) :
  below_threshold o -> found o = true.
Proof.
  intros (_ & pos & roi & limit & Hf & _). unfold found. now rewrite Hf.
Qed.

(** The loop over passes below the threshold, up to the pass behind the
    time limit. *)
Lemma loop_below (pre : list observation) (late : observation)
    (rest : list observation) (s : session) :
  Forall below_threshold pre ->
  MAX_MONITORING_TIME < elapsed late ->
  (last_roi s <> None -> threshold s <> None) ->
  exists out s',
    loop (pre ++ late :: rest) s = (out, s', Some Break) /\
    position_closed s' = position_closed s /\
    length (roi_progression s') = (length (roi_progression s) + length pre)%nat /\
    check_count s' = (check_count s + length pre)%nat /\
    (last_roi s' <> None -> threshold s' <> None).
Proof.
  intros Hpre Hlate. revert s.
  induction Hpre as [|o pre Ho _ IH]; intros s Hinv.
  - simpl. rewrite (iteration_late _ _ Hlate).
    exists [TimeLimit], s. repeat split; auto; lia.
  - destruct Ho as (Ht & pos & roi & limit & Hf & Hm & Hlt).
    simpl. rewrite (iteration_below _ _ _ _ _ Ht Hf Hm Hlt).
    edestruct IH as (out & s' & El & Hc & Hlen & Hcnt & Hinv');
      [|rewrite El; eexists _, s'; split; [reflexivity|]].
    + simpl. discriminate.
    + simpl in *. rewrite length_app in Hlen. simpl in Hlen.
      repeat split; auto; lia.
Qed.

(** The final report of a session that was not marked closed. *)
Lemma final_report_open (s : session) (log : log_file) :
  position_closed s = false ->
  (last_roi s <> None -> threshold s <> None) ->
  snd (final_report s log) = TIMED_OUT.
Proof.
  intros Hc Hinv. unfold final_report. rewrite Hc.
  destruct (last_roi s) as [r|]; [|reflexivity].
  destruct (Qeq_bool r 0); [reflexivity|].
  destruct (threshold s); [reflexivity|].
  exfalso. now apply Hinv.
Qed.

(** The timed-out ending: when every pass before the time limit finds the
    position with its ROI below the threshold, the pass that sees more than
    MAX_MONITORING_TIME seconds elapsed ends the session in TIMED_OUT,
    whatever snapshot and ROI that moment would give, with one sample of
    the ROI history per pass. *)
Theorem timeout_after_quiet_passes (pre : list observation) (late : observation)
    (rest : list observation) (log : log_file) :
  Forall below_threshold pre ->
  MAX_MONITORING_TIME < elapsed late ->
  exists out s,
    main (pre ++ late :: rest) log = (out, s, TIMED_OUT) /\
    length (roi_progression s) = length (filter (fun o => found o = true) pre) /\
    check_count s = length pre /\
    position_closed s = false.
Proof.
  intros Hpre Hlate.
  destruct (loop_below pre late rest start Hpre Hlate)
    as (out & s & El & Hc & Hlen & Hcnt & Hinv); [intros H; now contradict H|].
  simpl in Hc, Hlen, Hcnt. unfold main. rewrite El.
  pose proof (final_report_open s log Hc Hinv) as Hst.
  destruct (final_report s log) as [out' st]. simpl in Hst. subst st.
  eexists _, s. split; [reflexivity|]. repeat split; auto.
  replace (filter (fun o => found o = true) pre) with pre; [exact Hlen|].
  clear -Hpre. induction Hpre as [|o pre Ho _ IH]; [reflexivity|].
  rewrite filter_cons_True by (now apply below_threshold_found). now f_equal.
Qed.

Lemma quiet_pass_below (t : Q) :
  t <= MAX_MONITORING_TIME -> below_threshold (Sample.quiet_pass t).
Proof.
  intros H. split; [exact H|].
  eexists _, _, _. split; [reflexivity|]. split; [vm_compute; reflexivity|].
  reflexivity.
Qed.

Lemma timeout_after_quiet_passes_witness :
  exists out s,
    main ([Sample.quiet_pass 0; Sample.quiet_pass 1800; Sample.quiet_pass 3600]
            ++ Sample.hit_pass 3610 :: [Sample.quiet_pass 3620]) None
      = (out, s, TIMED_OUT) /\
    length (roi_progression s) =
      length (filter (fun o => found o = true)
                [Sample.quiet_pass 0; Sample.quiet_pass 1800; Sample.quiet_pass 3600]) /\
    check_count s = 3%nat /\
    position_closed s = false.
Proof.
  apply (timeout_after_quiet_passes
           [Sample.quiet_pass 0; Sample.quiet_pass 1800; Sample.quiet_pass 3600]
           (Sample.hit_pass 3610) [Sample.quiet_pass 3620] None).
  - repeat constructor; apply quiet_pass_below; vm_compute; discriminate.
  - reflexivity.
Defined.

(** C7, in monitor_sqdusdt.py: a session whose ROI is below the threshold
    on every pass that finds the position does not reach TIMED_OUT when one
    query before the time limit fails.  With passes at 0 s and 1810 s that
    find the position at roi < 8, a failed query at 1800 s and a pass at
    3610 s, the loop ends at the failed query: the position is marked
    closed after two checks and the final report is the one of a closed
    position, with one sample in the ROI history, while two passes found
    the position.  Without the failed query the same session ends in
    TIMED_OUT with two samples. *)
Theorem failed_query_preempts_timeout :
  (exists roi, measure (Sample.sqdusdt 101) = Ok (roi, 8) /\ roi < 8) /\
  found (Sample.failed_pass 1800) = false /\
  (main [Sample.quiet_pass 0; Sample.failed_pass 1800; Sample.quiet_pass 1810;
         Sample.quiet_pass 3610] None).2 = CLOSED_UNCONFIRMED /\
  position_closed
    (main [Sample.quiet_pass 0; Sample.failed_pass 1800; Sample.quiet_pass 1810;
           Sample.quiet_pass 3610] None).1.2 = true /\
  check_count
    (main [Sample.quiet_pass 0; Sample.failed_pass 1800; Sample.quiet_pass 1810;
           Sample.quiet_pass 3610] None).1.2 = 2%nat /\
  length (roi_progression
            (main [Sample.quiet_pass 0; Sample.failed_pass 1800; Sample.quiet_pass 1810;
                   Sample.quiet_pass 3610] None).1.2) = 1%nat /\
  length (List.filter found
            [Sample.quiet_pass 0; Sample.failed_pass 1800; Sample.quiet_pass 1810]) = 2%nat /\
  (main [Sample.quiet_pass 0; Sample.quiet_pass 1810; Sample.quiet_pass 3610] None).2
    = TIMED_OUT /\
  length (roi_progression
            (main [Sample.quiet_pass 0; Sample.quiet_pass 1810; Sample.quiet_pass 3610]
               None).1.2) = 2%nat.
Proof.
  split; [eexists; split; [vm_compute; reflexivity|reflexivity]|].
  repeat split; vm_compute; reflexivity.
Qed.

End MonitorFacts.

(** * Properties of the watcher of monitor_sqdusdt_live.py *)

Section LiveFacts.

Local Open Scope Q_scope.

Import Live.

(** The status is [False] exactly when no data comes with it. *)
Lemma check_logs_status (log : log_file) :
  match check_logs_for_success log with
  | (SFalse, None) => True
  | (SFalse, Some _) => False
  | (_, Some _) => True
  | (_, None) => False
  end.
Proof.
  destruct log as [lines|]; simpl; [apply scan_status|exact I].
Qed.

Lemma check_logs_nothing (log : log_file) :
  fst (check_logs_for_success log) = SFalse <->
  forall lines, log = Some lines ->
    Forall (fun l => is_match l = false) (window lines).
Proof.
  destruct log as [lines|]; simpl.
  - split.
    + intros H ? [= <-].
      pose proof (scan_status (rev (window lines))) as Hs.
      destruct (scan (rev (window lines))) as [st d] eqn:E. simpl in H. subst st.
      destruct d; [contradiction|].
      apply scan_nothing in E. apply List.Forall_rev in E.
      now rewrite rev_involutive in E.
    + intros H. specialize (H lines eq_refl).
      apply List.Forall_rev in H. apply scan_nothing in H. now rewrite H.
  - split; [discriminate|reflexivity].
Qed.

(** A failed snapshot query: a warning, the normal sleep, and the loop goes
    on with the ROI history as it was. *)
Lemma tick_no_data (log : log_file) (s : session) :
  tick {| snapshot := NoData; server_log := log |} s =
    ([FetchFailed; Sleep CHECK_INTERVAL],
     {| check_count := S (check_count s); last_roi := last_roi s;
        roi_history := roi_history s |},
     Continue).
Proof. reflexivity. Qed.

(** A pass whose snapshot lacks the symbol ends the loop; it prints the
    success report exactly when the log check returns a truthy status. *)
Lemma tick_absent (o : observation) (s : session) :
  absent o ->
  exists report,
    tick o s =
      ([ClosedNotFound] ++ report ++ [Completed],
       {| check_count := S (check_count s); last_roi := last_roi s;
          roi_history := roi_history s |},
       Break) /\
    match check_logs_for_success (server_log o) with
    | (SFalse, _) => report = []
    | (_, Some data) => report = [Success data (last_roi s)]
    | (_, None) => False
    end.
Proof.
  intros (positions & Hs & Hf). unfold tick. rewrite Hs, Hf.
  pose proof (check_logs_status (server_log o)) as Hst.
  destruct (check_logs_for_success (server_log o)) as [st d].
  destruct st, d as [data|]; simpl in *; try contradiction;
    [exists []|exists [Success data (last_roi s)]..]; split; reflexivity.
Qed.

(** A pass that finds the position goes on, whatever its ROI. *)
Lemma tick_found (o : observation) (s : session) (positions : list Position)
    (pos : Position) (roi : Q) :
  snapshot o = Data positions ->
  find_in positions = Ok (Some pos) ->
  measure pos = Ok roi ->
  tick o s =
    ([display roi (fst (check_logs_for_success (server_log o))); Sleep CHECK_INTERVAL],
     {| check_count := S (check_count s); last_roi := Some roi;
        roi_history := roi_history s ++ [roi] |},
     Continue).
Proof.
  intros Hs Hf Hm. unfold tick. rewrite Hs, Hf, Hm.
  now destruct (check_logs_for_success (server_log o)).
Qed.

(** Only a snapshot without the symbol ends the loop. *)
Lemma tick_break (o : observation) (s : session) :
  snd (tick o s) = Break -> absent o.
Proof.
  unfold tick, absent.
  destruct (snapshot o) as [| |positions]; simpl; try discriminate.
  destruct (find_in positions) as [[pos|]|e] eqn:Ef; simpl; try discriminate.
  - destruct (measure pos); [|discriminate].
    destruct (check_logs_for_success (server_log o)). discriminate.
  - intros _. eauto.
Qed.

Lemma loop_break (trace : list observation) (s : session) (out : list event)
    (s' : session) :
  loop trace s = (out, s', Some Break) ->
  exists pre o rest, trace = pre ++ o :: rest /\ absent o.
Proof.
  revert s out. induction trace as [|o trace IH]; intros s out; simpl; [discriminate|].
  destruct (tick o s) as [[out1 s1] c] eqn:Et. destruct c.
  - destruct (loop trace s1) as [[out2 s2] c2] eqn:El.
    intros [= <- <- ->].
    destruct (IH _ _ El) as (pre & o' & rest & -> & Ha).
    exists (o :: pre), o', rest. auto.
  - intros _. exists [], o, trace. split; [reflexivity|].
    apply (tick_break o s). now rewrite Et.
Qed.


End LiveFacts.

(** * Properties of the two watchers together *)

Section WatcherClaims.

Local Open Scope Q_scope.

(** The loop of monitor_sqdusdt.py runs through passes below the threshold
    and hands the session to the rest of the trace. *)
Lemma monitor_loop_through (pre tl : list Monitor.observation) (s : Monitor.session) :
  Forall Monitor.below_threshold pre ->
  (Monitor.last_roi s <> None -> Monitor.threshold s <> None) ->
  exists out1 s1,
    Monitor.loop (pre ++ tl) s =
      (let '(out2, s2, c) := Monitor.loop tl s1 in (out1 ++ out2, s2, c)) /\
    Monitor.position_closed s1 = Monitor.position_closed s /\
    (Monitor.last_roi s <> None -> Monitor.last_roi s1 <> None) /\
    (pre <> [] -> Monitor.last_roi s1 <> None) /\
    (Monitor.last_roi s1 <> None -> Monitor.threshold s1 <> None).
Proof.
  intros Hpre. revert s.
  induction Hpre as [|o pre Ho _ IH]; intros s Hinv.
  - exists [], s. simpl. destruct (Monitor.loop tl s) as [[? ?] ?].
    repeat split; auto; intros H; now contradict H.
  - destruct Ho as (Ht & pos & roi & limit & Hf & Hm & Hlt).
    simpl. rewrite (iteration_below _ _ _ _ _ Ht Hf Hm Hlt).
    match goal with
    | |- context [Monitor.loop (pre ++ tl) ?s0] =>
        destruct (IH s0) as (out1 & s1 & El & Hc & Hmono & _ & Hinv')
    end.
    { simpl. discriminate. }
    rewrite El. eexists (_ ++ out1), s1.
    destruct (Monitor.loop tl s1) as [[out2 s2] c].
    rewrite <- app_assoc. split; [reflexivity|]. simpl in Hc, Hmono.
    assert (Hlast : Monitor.last_roi s1 <> None) by (apply Hmono; discriminate).
    repeat split; auto.
Qed.

(** The final report of a session marked closed that holds an earlier ROI:
    confirmed exactly when [grep] prints something. *)
Lemma final_report_closed (s : Monitor.session) (log : log_file) (r : Q) :
  Monitor.position_closed s = true ->
  Monitor.last_roi s = Some r ->
  snd (Monitor.final_report s log) =
    match Monitor.check_server_log log with
    | Some _ => Monitor.CLOSED_CONFIRMED
    | None => Monitor.CLOSED_UNCONFIRMED
    end.
Proof.
  intros Hc Hr. unfold Monitor.final_report. rewrite Hc, Hr.
  now destruct (Monitor.check_server_log log).
Qed.

(** C1, in monitor_sqdusdt.py: a pass whose snapshot query fails prints
    the not-found warning, marks the position closed and leaves the loop.
    With the failure on the first pass the session ends after one check,
    the later passes are never made, and the final report raises
    [TypeError] on the missing last ROI; with an ROI from an earlier pass
    the session ends as a closed position without confirmation. *)
Theorem monitor_failed_query_ends_session :
  Monitor.loop [Sample.failed_pass 0; Sample.quiet_pass 10; Sample.quiet_pass 20]
      Monitor.start =
    ([Monitor.NotFound],
     {| Monitor.check_count := 1; Monitor.last_roi := None;
        Monitor.roi_progression := []; Monitor.position_closed := true;
        Monitor.threshold := None |},
     Some Monitor.Break) /\
  Monitor.main [Sample.failed_pass 0; Sample.quiet_pass 10; Sample.quiet_pass 20] None =
    ([Monitor.NotFound; Monitor.SessionComplete; Monitor.PositionClosed],
     {| Monitor.check_count := 1; Monitor.last_roi := None;
        Monitor.roi_progression := []; Monitor.position_closed := true;
        Monitor.threshold := None |},
     Monitor.FAILED TypeError) /\
  (let '(_, s, st) :=
     Monitor.main [Sample.quiet_pass 0; Sample.failed_pass 10; Sample.quiet_pass 20] None in
   st = Monitor.CLOSED_UNCONFIRMED /\ Monitor.check_count s = 2%nat /\
   Monitor.position_closed s = true /\ length (Monitor.roi_progression s) = 1%nat).
Proof. repeat split; vm_compute; reflexivity. Qed.

(** C2 as stated fails in monitor_sqdusdt_live.py: the symbol is absent
    from the snapshot and the only log line about it is the announcement
    "Ginie closing position", for which the log check returns 'closing' and
    not [True]; the watcher prints the success report all the same. *)
Lemma closing_line_reported_as_success :
  Live.absent (Sample.live_pass (Data [Sample.btcusdt]) (Some [Sample.closing_line])) /\
  Live.check_logs_for_success (Some [Sample.closing_line]) =
    (Live.SClosing, parsed Sample.closing_line) /\
  Live.state_after
    (Live.tick (Sample.live_pass (Data [Sample.btcusdt]) (Some [Sample.closing_line]))
       Live.start) = Live.CLOSED_CONFIRMED.
Proof.
  split; [|split; vm_compute; reflexivity].
  exists [Sample.btcusdt]. split; reflexivity.
Qed.

(** C2, amended.  In monitor_sqdusdt_live.py a pass whose snapshot lacks
    the symbol reads the log and ends the loop; it reports the success
    exactly when the check of the last 500 lines returns [True] or
    'closing', and ends without that report exactly when no line of the
    window is a structured match.  In monitor_sqdusdt.py, after at least
    one pass that recorded an ROI, a pass whose snapshot lacks the symbol
    ends the loop and the final report runs [grep] over the whole log:
    confirmed exactly when some line matches, unconfirmed otherwise. *)
Theorem closure_confirmation :
  (forall (o : Live.observation) (s : Live.session),
      Live.absent o ->
      snd (Live.tick o s) = Live.Break /\
      (Live.state_after (Live.tick o s) = Live.CLOSED_CONFIRMED <->
       Live.truthy (fst (Live.check_logs_for_success (Live.server_log o))) = true) /\
      (Live.state_after (Live.tick o s) = Live.CLOSED_UNCONFIRMED <->
       fst (Live.check_logs_for_success (Live.server_log o)) = Live.SFalse) /\
      (fst (Live.check_logs_for_success (Live.server_log o)) = Live.SFalse <->
       forall lines, Live.server_log o = Some lines ->
         Forall (fun l => Live.is_match l = false) (Live.window lines))) /\
  (forall (pre : list Monitor.observation) (o : Monitor.observation)
          (rest : list Monitor.observation) (lines : list log_line),
      pre <> [] ->
      Forall Monitor.below_threshold pre ->
      Monitor.elapsed o <= Monitor.MAX_MONITORING_TIME ->
      (exists positions,
          Monitor.snapshot o = Data positions /\ Monitor.find_in positions = Ok None) ->
      (snd (Monitor.main (pre ++ o :: rest) (Some lines)) = Monitor.CLOSED_CONFIRMED <->
       Exists (fun l => Monitor.grep_match l = true) lines) /\
      (snd (Monitor.main (pre ++ o :: rest) (Some lines)) = Monitor.CLOSED_UNCONFIRMED <->
       ~ Exists (fun l => Monitor.grep_match l = true) lines)).
Proof.
  split.
  - intros o s Ha.
    destruct (tick_absent o s Ha) as (report & Et & Hr). rewrite Et.
    split; [reflexivity|].
    split; [|split; [|apply check_logs_nothing]];
      destruct (Live.check_logs_for_success (Live.server_log o)) as [st d];
      destruct st, d as [data|]; simpl in *; try contradiction; subst report; simpl;
      split; congruence.
  - intros pre o rest lines Hne Hpre Ht (positions & Hs & Hf).
    destruct (monitor_loop_through pre (o :: rest) Monitor.start Hpre)
      as (out1 & s1 & El & Hc & _ & Hlast & _); [intros H; now contradict H|].
    assert (Hfind : Monitor.find_sqdusdt_position (Monitor.snapshot o) = Ok None)
      by (now rewrite Hs).
    simpl in El. rewrite (iteration_not_found _ _ Ht Hfind) in El.
    unfold Monitor.main. rewrite El.
    destruct (Monitor.last_roi s1) as [r|] eqn:Er; [|exfalso; now apply (Hlast Hne)].
    rewrite <- !check_server_log_confirms.
    remember (Monitor.check_server_log (Some lines)) as entry eqn:Ee.
    match goal with
    | |- context [Monitor.final_report ?s2 ?l] =>
        pose proof (final_report_closed s2 l r eq_refl eq_refl) as Hfr;
        rewrite <- Ee in Hfr;
        destruct (Monitor.final_report s2 l) as [out' st]
    end.
    cbn [snd] in *. subst st.
    destruct entry; split; split; intros H;
      first [reflexivity | discriminate | congruence
            | exfalso; apply H; discriminate | exfalso; now apply H
            | intros H'; now apply H'].
Qed.

Lemma closure_confirmation_witness :
  snd (Monitor.main ([Sample.quiet_pass 0] ++ Sample.absent_pass 10 :: [])
         (Some [Sample.plain_line])) = Monitor.CLOSED_CONFIRMED /\
  snd (Live.tick (Sample.live_pass (Data [Sample.btcusdt]) (Some [Sample.plain_line]))
         Live.start) = Live.Break /\
  Live.state_after
    (Live.tick (Sample.live_pass (Data [Sample.btcusdt]) (Some [Sample.plain_line]))
       Live.start) = Live.CLOSED_UNCONFIRMED.
Proof.
  split; [|split].
  - apply (proj2 closure_confirmation [Sample.quiet_pass 0] (Sample.absent_pass 10) []
             [Sample.plain_line]).
    + discriminate.
    + constructor; [|constructor]. apply quiet_pass_below. vm_compute. discriminate.
    + vm_compute. discriminate.
    + exists [Sample.btcusdt]. split; reflexivity.
    + constructor. vm_compute. reflexivity.
  - apply (proj1 closure_confirmation
             (Sample.live_pass (Data [Sample.btcusdt]) (Some [Sample.plain_line]))
             Live.start).
    exists [Sample.btcusdt]. split; reflexivity.
  - apply (proj1 closure_confirmation
             (Sample.live_pass (Data [Sample.btcusdt]) (Some [Sample.plain_line]))
             Live.start).
    + exists [Sample.btcusdt]. split; reflexivity.
    + vm_compute. reflexivity.
Defined.

(** C6 as stated fails in monitor_sqdusdt.py: the first pass sees the
    position with roi = 49.58 >= 8, and the loop ends there; the position
    is still open in the next snapshots, which are never fetched. *)
Lemma monitor_stops_at_threshold :
  exists roi out s,
    Monitor.measure (Sample.sqdusdt 110) = Ok (roi, 8) /\ 8 <= roi /\
    Monitor.loop [Sample.hit_pass 0; Sample.hit_pass 10; Sample.quiet_pass 20]
      Monitor.start = (out, s, Some Monitor.Break) /\
    out = [Monitor.ThresholdHit roi 8; Monitor.Sleep 5] /\
    Monitor.check_count s = 1%nat /\
    Monitor.position_closed s = true.
Proof.
  eexists _, _, _. split; [vm_compute; reflexivity|].
  split; [vm_compute; discriminate|].
  split; [vm_compute; reflexivity|]. repeat split.
Qed.

(** C6, amended.  In monitor_sqdusdt_live.py a pass that observes
    roi >= threshold prints the hit, records the ROI, sleeps the normal
    interval and goes on; the loop of that script ends only on a pass whose
    snapshot lacks the symbol (it has no session time limit).  In
    monitor_sqdusdt.py a pass that observes roi >= threshold ends the loop:
    the script waits 5 seconds, marks the position closed and turns to its
    final report. *)
Theorem threshold_hit_polling :
  (forall (o : Live.observation) (s : Live.session) (positions : list Position)
          (pos : Position) (roi : Q),
      Live.snapshot o = Data positions ->
      Live.find_in positions = Ok (Some pos) ->
      Live.measure pos = Ok roi ->
      Live.THRESHOLD <= roi ->
      Live.tick o s =
        ([Live.Hit roi (fst (Live.check_logs_for_success (Live.server_log o)));
          Live.Sleep Live.CHECK_INTERVAL],
         {| Live.check_count := S (Live.check_count s); Live.last_roi := Some roi;
            Live.roi_history := Live.roi_history s ++ [roi] |},
         Live.Continue) /\
      Live.state_after (Live.tick o s) = Live.THRESHOLD_HIT) /\
  (forall (trace : list Live.observation) (s s' : Live.session) (out : list Live.event),
      Live.loop trace s = (out, s', Some Live.Break) ->
      exists pre o rest, trace = pre ++ o :: rest /\ Live.absent o) /\
  (forall (o : Monitor.observation) (rest : list Monitor.observation)
          (s : Monitor.session) (pos : Position) (roi limit : Q),
      Monitor.elapsed o <= Monitor.MAX_MONITORING_TIME ->
      Monitor.find_sqdusdt_position (Monitor.snapshot o) = Ok (Some pos) ->
      Monitor.measure pos = Ok (roi, limit) ->
      limit <= roi ->
      Monitor.loop (o :: rest) s =
        ([Monitor.ThresholdHit roi limit; Monitor.Sleep 5],
         {| Monitor.check_count := S (Monitor.check_count s);
            Monitor.last_roi := Monitor.last_roi s;
            Monitor.roi_progression :=
              Monitor.roi_progression s ++ [(Monitor.stamp o, roi)];
            Monitor.position_closed := true; Monitor.threshold := Some limit |},
         Some Monitor.Break)).
Proof.
  split; [|split].
  - intros o s positions pos roi Hs Hf Hm Hle.
    rewrite (tick_found o s positions pos roi Hs Hf Hm).
    unfold Live.display. rewrite (Qle_bool_true _ _ Hle). split; reflexivity.
  - intros trace s s' out H. exact (loop_break trace s out s' H).
  - intros o rest s pos roi limit Ht Hf Hm Hle. simpl.
    now rewrite (iteration_hit _ _ _ _ _ Ht Hf Hm Hle).
Qed.

Lemma threshold_hit_polling_witness :
  exists roi,
    Live.measure (Sample.sqdusdt 110) = Ok roi /\
    Live.state_after
      (Live.tick (Sample.live_pass (Data [Sample.btcusdt; Sample.sqdusdt 110]) None)
         Live.start) = Live.THRESHOLD_HIT /\
    snd (Live.tick (Sample.live_pass (Data [Sample.btcusdt; Sample.sqdusdt 110]) None)
           Live.start) = Live.Continue.
Proof.
  eexists. split; [vm_compute; reflexivity|].
  pose proof (proj1 threshold_hit_polling
                (Sample.live_pass (Data [Sample.btcusdt; Sample.sqdusdt 110]) None)
                Live.start [Sample.btcusdt; Sample.sqdusdt 110] (Sample.sqdusdt 110) _
                eq_refl eq_refl eq_refl) as H.
  destruct H as [Ht Hs]; [vm_compute; discriminate|].
  split; [exact Hs|]. rewrite Ht. reflexivity.
Defined.

End WatcherClaims.

(** * Further properties of the ROI calculator *)

Section CalculatorAlgebra.

Local Open Scope Q_scope.

Lemma Qdiv_le_mono (a b d : Q) : 0 < d -> a <= b -> a / d <= b / d.
Proof.
  intros Hd Hab. unfold Qdiv. apply Qmult_le_compat_r; [exact Hab|].
  apply Qlt_le_weak. now apply Qinv_lt_0_compat.
Qed.

(** X3: a long and a short position at the same prices cannot both be in
    profit: with a non-negative fee rate, reference price and leverage and
    a positive quantity and entry price, the two net PnLs add up to at most
    0, and so do the two ROIs. *)
Theorem long_and_short_pay_the_fees (fee entry current qty lev : Q) :
  0 <= fee -> 0 < qty -> 0 < entry -> 0 <= current -> 0 <= lev ->
  exists roi_long net_long roi_short net_short,
    RoiMonitor.calculate_roi_at fee entry current qty "LONG" lev
      = Ok (roi_long, net_long) /\
    RoiMonitor.calculate_roi_at fee entry current qty "SHORT" lev
      = Ok (roi_short, net_short) /\
    net_long + net_short <= 0 /\
    roi_long + roi_short <= 0.
Proof.
  intros Hf Hq He Hc Hl.
  assert (Hn : 0 < qty * entry) by (now apply Qmult_lt_0_compat).
  rewrite !(calculate_roi_positive _ _ _ _ _ _ Hn).
  eexists _, _, _, _. split; [reflexivity|]. split; [reflexivity|].
  unfold RoiMonitor.gross_pnl. simpl String.eqb. cbv iota.
  assert (Hfees : 0 <= qty * entry * fee + current * qty * fee).
  { assert (0 <= qty * entry * fee)
      by (apply Qmult_le_0_compat; [now apply Qlt_le_weak|assumption]).
    assert (0 <= current * qty * fee).
    { apply Qmult_le_0_compat; [|assumption].
      apply Qmult_le_0_compat; [assumption|now apply Qlt_le_weak]. }
    lra. }
  split; [lra|].
  set (fees := qty * entry * fee + current * qty * fee) in *.
  assert (Hsum : ((current - entry) * qty - fees) * lev / (qty * entry) * 100
                 + ((entry - current) * qty - fees) * lev / (qty * entry) * 100
                 == (- (2 * fees * lev)) / (qty * entry) * 100).
  { field. split; intros E; [rewrite E in He; exact (Qlt_irrefl _ He)
                            |rewrite E in Hq; exact (Qlt_irrefl _ Hq)]. }
  rewrite Hsum.
  assert (Hfl : 0 <= fees * lev) by (now apply Qmult_le_0_compat).
  assert (Hd : (- (2 * fees * lev)) / (qty * entry) <= 0 / (qty * entry))
    by (apply Qdiv_le_mono; [exact Hn|lra]).
  unfold Qdiv in Hd at 2. rewrite Qmult_0_l in Hd. lra.
Qed.

Lemma long_and_short_pay_the_fees_witness :
  exists roi_long net_long roi_short net_short,
    RoiMonitor.calculate_roi_at 0.0004 100 110 10 "LONG" 5 = Ok (roi_long, net_long) /\
    RoiMonitor.calculate_roi_at 0.0004 100 110 10 "SHORT" 5 = Ok (roi_short, net_short) /\
    net_long + net_short <= 0 /\
    roi_long + roi_short <= 0.
Proof.
  apply (long_and_short_pay_the_fees 0.0004 100 110 10 5);
    vm_compute; discriminate || reflexivity.
Defined.

End CalculatorAlgebra.

Section CalculatorOrder.

Local Open Scope Q_scope.

Lemma Qlt_nonzero (x : Q) : 0 < x -> ~ x == 0.
Proof. intros H E. rewrite E in H. exact (Qlt_irrefl _ H). Qed.

(** The ROI of a long position on a positive notional, as one quotient. *)
Lemma roi_long_closed_form (fee entry current qty lev : Q) :
  0 < qty -> 0 < entry ->
  exists roi net,
    RoiMonitor.calculate_roi_at fee entry current qty "LONG" lev = Ok (roi, net) /\
    roi == (current * (1 - fee) - entry * (1 + fee)) * lev * 100 / entry /\
    net == qty * (current * (1 - fee) - entry * (1 + fee)).
Proof.
  intros Hq He.
  assert (Hn : 0 < qty * entry) by (now apply Qmult_lt_0_compat).
  rewrite (calculate_roi_positive _ _ _ _ _ _ Hn).
  eexists _, _. split; [reflexivity|].
  unfold RoiMonitor.gross_pnl. simpl String.eqb. cbv iota.
  split; [|ring]. field. split; now apply Qlt_nonzero.
Qed.

Lemma roi_short_closed_form (fee entry current qty lev : Q) :
  0 < qty -> 0 < entry ->
  exists roi net,
    RoiMonitor.calculate_roi_at fee entry current qty "SHORT" lev = Ok (roi, net) /\
    roi == (entry * (1 - fee) - current * (1 + fee)) * lev * 100 / entry /\
    net == qty * (entry * (1 - fee) - current * (1 + fee)).
Proof.
  intros Hq He.
  assert (Hn : 0 < qty * entry) by (now apply Qmult_lt_0_compat).
  rewrite (calculate_roi_positive _ _ _ _ _ _ Hn).
  eexists _, _. split; [reflexivity|].
  unfold RoiMonitor.gross_pnl. simpl String.eqb. cbv iota.
  split; [|ring]. field. split; now apply Qlt_nonzero.
Qed.



(** X5: no profit without a favourable move: with positive fee rate,
    quantity, entry price and leverage, a long position whose reference
    price is at or below the entry price (and not negative) has a negative
    net PnL and a negative ROI, and so has a short position whose reference
    price is at or above the entry price. *)
Theorem loss_without_favourable_move (fee entry current qty lev : Q) :
  0 < fee -> 0 < qty -> 0 < entry -> 0 < lev -> 0 <= current ->
  exists roi_long net_long roi_short net_short,
    RoiMonitor.calculate_roi_at fee entry current qty "LONG" lev
      = Ok (roi_long, net_long) /\
    RoiMonitor.calculate_roi_at fee entry current qty "SHORT" lev
      = Ok (roi_short, net_short) /\
    (current <= entry -> net_long < 0 /\ roi_long < 0) /\
    (entry <= current -> net_short < 0 /\ roi_short < 0).
Proof.
  intros Hf Hq He Hl Hc.
  destruct (roi_long_closed_form fee entry current qty lev Hq He)
    as (rl & nl & El & Hrl & Hnl).
  destruct (roi_short_closed_form fee entry current qty lev Hq He)
    as (rs & ns & Es & Hrs & Hns).
  exists rl, nl, rs, ns. split; [exact El|]. split; [exact Es|].
  assert (Hfe : 0 < entry * fee) by (now apply Qmult_lt_0_compat).
  assert (Hfc : 0 <= current * fee)
    by (apply Qmult_le_0_compat; [assumption|now apply Qlt_le_weak]).
  assert (Hinv : 0 < / entry) by (now apply Qinv_lt_0_compat).
  assert (Hsign : forall margin, margin < 0 ->
            qty * margin < 0 /\ margin * lev * 100 / entry < 0).
  { intros margin Hm.
    assert (H1 : 0 < qty * (- margin)) by (apply Qmult_lt_0_compat; lra).
    assert (H2 : 0 < (- margin) * lev) by (apply Qmult_lt_0_compat; lra).
    assert (H3 : 0 < (- margin) * lev * 100 * / entry)
      by (apply Qmult_lt_0_compat; [lra|exact Hinv]).
    unfold Qdiv. split; lra. }
  rewrite Hrl, Hnl, Hrs, Hns. split; intros Hmove; apply Hsign; lra.
Qed.

Lemma loss_without_favourable_move_witness :
  exists roi_long net_long roi_short net_short,
    RoiMonitor.calculate_roi_at 0.0004 100 100 10 "LONG" 5 = Ok (roi_long, net_long) /\
    RoiMonitor.calculate_roi_at 0.0004 100 100 10 "SHORT" 5 = Ok (roi_short, net_short) /\
    (100 <= 100 -> net_long < 0 /\ roi_long < 0) /\
    (100 <= 100 -> net_short < 0 /\ roi_short < 0).
Proof.
  apply (loss_without_favourable_move 0.0004 100 100 10 5);
    vm_compute; discriminate || reflexivity.
Defined.

End CalculatorOrder.

(** * Properties of the report of roi_monitor.py *)

Section ReportFacts.

Local Open Scope Q_scope.

Import RoiMonitor.

Lemma threshold_positive (md : string) : 0 < threshold_for md.
Proof.
  unfold threshold_for, dict_get.
  destruct (THRESHOLDS !! md) as [pct|] eqn:E; [|reflexivity].
  apply roi_monitor_thresholds_dom in E.
  destruct E as [[_ ->]|[[_ ->]|[[_ ->]|[_ ->]]]]; reflexivity.
Qed.

(** A positive ROI comes from a positive notional. *)
Lemma positive_roi_notional (entry current qty : Q) (sd : string) (lev roi net : Q) :
  calculate_roi entry current qty sd lev = Ok (roi, net) ->
  0 < roi -> 0 < qty * entry.
Proof.
  intros E Hr. destruct (Qlt_le_dec 0 (qty * entry)) as [|Hn]; [assumption|].
  unfold calculate_roi in E. rewrite (calculate_roi_guard _ _ _ _ _ _ Hn) in E.
  injection E as <- _. exfalso. exact (Qlt_irrefl _ Hr).
Qed.

(** What one pass of the loop adds to the tally. *)
Lemma visit_adds (pos : Position) (t t' : tally) :
  visit pos t = Ok t' ->
  exists r,
    rows t' = rows t ++ [r] /\
    symbol pos = Some (row_symbol r) /\
    threshold_hits t' =
      threshold_hits t ++ (if row_is_hit r then [hit_of_row r] else []) /\
    total_roi t' = total_roi t + row_roi r /\
    positive_count t' =
      (positive_count t + (if row_is_positive r then 1 else 0))%nat /\
    (row_is_hit r = true <-> row_threshold r <= row_roi r) /\
    0 < row_threshold r /\
    (0 < row_roi r -> ~ row_entry r == 0).
Proof.
  unfold visit.
  destruct (symbol pos) as [sym|]; simpl; [|discriminate].
  destruct (entry_price pos) as [entry|]; simpl; [|discriminate].
  destruct (highest_price pos) as [current|]; simpl; [|discriminate].
  destruct (remaining_qty pos) as [qty|]; simpl; [|discriminate].
  destruct (side pos) as [sd|]; simpl; [|discriminate].
  destruct (leverage pos) as [lev|]; simpl; [|discriminate].
  destruct (mode pos) as [md|]; simpl; [|discriminate].
  destruct (calculate_roi entry current qty sd lev) as [[roi net]|e] eqn:Ec; simpl;
    [|discriminate].
  assert (Hentry : 0 < roi -> ~ entry == 0).
  { intros Hr E. pose proof (positive_roi_notional _ _ _ _ _ _ _ Ec Hr) as Hn.
    rewrite E, Qmult_0_r in Hn. exact (Qlt_irrefl _ Hn). }
  pose proof (threshold_positive md) as Hpos.
  assert (Hcount : forall n : nat,
             (if negb (Qle_bool roi 0) then S n else n) =
             (n + (if negb (Qle_bool roi 0) then 1 else 0))%nat)
    by (intros n; destruct (Qle_bool roi 0); simpl; lia).
  destruct (Qle_bool (threshold_for md) roi) eqn:Eh; intros [= <-];
    eexists; cbn [rows threshold_hits total_roi positive_count];
    (split; [reflexivity|]);
    unfold row_is_hit, row_is_positive;
    cbn [row_symbol row_status row_roi row_threshold row_entry fst];
    (split; [reflexivity|]); (split; [now rewrite ?app_nil_r|]);
    (split; [reflexivity|]); (split; [apply Hcount|]); (split; [|split; assumption]).
  - split; [intros _; now apply Qle_bool_iff|reflexivity].
  - split; [discriminate|]. intros H. apply Qle_bool_iff in H. congruence.
Qed.

(** The invariant of the loop over the snapshot. *)
Lemma visit_all_invariant (positions : list Position) (t t' : tally) :
  visit_all positions t = Ok t' ->
  exists added,
    rows t' = rows t ++ added /\
    map symbol positions = map (fun r => Some (row_symbol r)) added /\
    threshold_hits t' =
      threshold_hits t ++ map hit_of_row (List.filter row_is_hit added) /\
    total_roi t' == total_roi t + sum_roi added /\
    positive_count t' =
      (positive_count t + length (List.filter row_is_positive added))%nat /\
    Forall (fun r => (row_is_hit r = true <-> row_threshold r <= row_roi r) /\
                     0 < row_threshold r /\
                     (0 < row_roi r -> ~ row_entry r == 0)) added.
Proof.
  revert t. induction positions as [|pos positions IH]; intros t; simpl.
  - intros [= <-]. exists []. simpl. rewrite !app_nil_r, Qplus_0_r.
    repeat split; auto; lia.
  - destruct (visit pos t) as [t1|e] eqn:Ev; simpl; [|discriminate].
    intros H. destruct (IH _ H) as (added & Hr & Hs & Hh & Ht & Hp & HF).
    destruct (visit_adds _ _ _ Ev) as (r & Hr1 & Hs1 & Hh1 & Ht1 & Hp1 & Hrow).
    exists (r :: added). simpl.
    rewrite Hr, Hr1, <- app_assoc. split; [reflexivity|].
    rewrite Hs1, Hs. split; [reflexivity|].
    rewrite Hh, Hh1, <- app_assoc. split.
    { destruct (row_is_hit r); reflexivity. }
    rewrite Ht, Ht1. split; [ring|].
    rewrite Hp, Hp1. split.
    { destruct (row_is_positive r); simpl; lia. }
    constructor; assumption.
Qed.

End ReportFacts.

Section ReportClaims.

Local Open Scope Q_scope.

Import RoiMonitor.

Lemma filter_length_le {A : Type} (p q : A -> bool) (l : list A) :
  Forall (fun x => p x = true -> q x = true) l ->
  (length (List.filter p l) <= length (List.filter q l))%nat.
Proof.
  induction 1 as [|x l Hx _ IH]; simpl; [lia|].
  destruct (p x) eqn:Ep.
  - rewrite (Hx eq_refl). simpl. lia.
  - destruct (q x); simpl; lia.
Qed.

Lemma filter_length_bound {A : Type} (p : A -> bool) (l : list A) :
  (length (List.filter p l) <= length l)%nat.
Proof. induction l as [|x l IH]; simpl; [lia|]. destruct (p x); simpl; lia. Qed.

Lemma visit_all_from_empty (positions : list Position) (t : tally) :
  visit_all positions empty_tally = Ok t ->
  map symbol positions = map (fun r => Some (row_symbol r)) (rows t) /\
  threshold_hits t = map hit_of_row (List.filter row_is_hit (rows t)) /\
  total_roi t == sum_roi (rows t) /\
  positive_count t = length (List.filter row_is_positive (rows t)) /\
  Forall (fun r => (row_is_hit r = true <-> row_threshold r <= row_roi r) /\
                   0 < row_threshold r /\
                   (0 < row_roi r -> ~ row_entry r == 0)) (rows t).
Proof.
  intros H.
  destruct (visit_all_invariant _ _ _ H) as (added & Hr & Hs & Hh & Ht & Hp & HF).
  simpl in Hr, Hh, Ht, Hp. subst added. rewrite Qplus_0_l in Ht. auto.
Qed.

Lemma visit_row (pos : Position) (t t' : tally) :
  visit pos t = Ok t' ->
  exists r, rows t' = rows t ++ [r] /\ row_of pos r.
Proof.
  unfold visit, row_of.
  destruct (symbol pos) as [sym|]; simpl; [|discriminate].
  destruct (entry_price pos) as [entry|]; simpl; [|discriminate].
  destruct (highest_price pos) as [current|]; simpl; [|discriminate].
  destruct (remaining_qty pos) as [qty|]; simpl; [|discriminate].
  destruct (side pos) as [sd|]; simpl; [|discriminate].
  destruct (leverage pos) as [lev|]; simpl; [|discriminate].
  destruct (mode pos) as [md|]; simpl; [|discriminate].
  destruct (calculate_roi entry current qty sd lev) as [[roi net]|e] eqn:Ec; simpl;
    [|discriminate].
  destruct (Qle_bool (threshold_for md) roi) eqn:Eh; intros [= <-];
    eexists; cbn [rows]; (split; [reflexivity|]);
    cbn [row_symbol row_side row_mode row_leverage row_entry row_current
         row_roi row_threshold row_status];
    rewrite Eh; repeat (split; [reflexivity|]);
    (split; [exists qty, net; split; [reflexivity|exact Ec]|]);
    split; reflexivity.
Qed.

Lemma visit_all_rows (positions : list Position) (t t' : tally) :
  visit_all positions t = Ok t' ->
  exists added, rows t' = rows t ++ added /\ Forall2 row_of positions added.
Proof.
  revert t. induction positions as [|pos positions IH]; intros t; simpl.
  - intros [= <-]. exists []. rewrite app_nil_r. split; [reflexivity|constructor].
  - destruct (visit pos t) as [t1|e] eqn:Ev; simpl; [|discriminate].
    intros H. destruct (IH _ H) as (added & Hr & HF).
    destruct (visit_row _ _ _ Ev) as (r & Hr1 & Hrow).
    exists (r :: added). rewrite Hr, Hr1, <- app_assoc. split; [reflexivity|].
    now constructor.
Qed.

Lemma row_of_hit (pos : Position) (r : row) :
  row_of pos r ->
  (row_is_hit r = true <-> threshold_for (row_mode r) <= row_roi r).
Proof.
  intros (_ & _ & _ & _ & _ & _ & _ & Ht & Hs).
  unfold row_is_hit. rewrite Hs, Ht.
  destruct (Qle_bool (threshold_for (row_mode r)) (row_roi r)) eqn:E.
  - split; [intros _; now apply Qle_bool_iff|reflexivity].
  - split; [discriminate|]. intros H. apply Qle_bool_iff in H. congruence.
Qed.

(** X7: the table has one line per position of the snapshot, in its order;
    the columns of a line are the values of its record, its ROI is what
    [calculate_roi] returns for them, and its threshold is
    [THRESHOLDS.get(mode, 8.0)] of its own mode; a line is marked as a
    threshold hit exactly when its ROI reaches that threshold, and
    [threshold_hits] holds exactly the marked lines, in the order of the
    table. *)
Theorem report_lists_the_hits (positions : list Position) (t : tally) :
  visit_all positions empty_tally = Ok t ->
  Forall2 row_of positions (rows t) /\
  map symbol positions = map (fun r => Some (row_symbol r)) (rows t) /\
  threshold_hits t = map hit_of_row (List.filter row_is_hit (rows t)) /\
  Forall (fun r => row_threshold r = threshold_for (row_mode r) /\
                   (row_is_hit r = true <->
                    threshold_for (row_mode r) <= row_roi r)) (rows t).
Proof.
  intros H. destruct (visit_all_from_empty _ _ H) as (Hs & Hh & _ & _ & _).
  destruct (visit_all_rows _ _ _ H) as (added & Hr & HF2).
  simpl in Hr. subst added.
  split; [exact HF2|]. split; [exact Hs|]. split; [exact Hh|].
  clear -HF2. induction HF2 as [|pos r positions table Hrow _ IH]; constructor;
    [|exact IH].
  split; [apply Hrow|exact (row_of_hit _ _ Hrow)].
Qed.

Lemma report_lists_the_hits_witness :
  exists t,
    visit_all [Sample.btcusdt; Sample.sqdusdt 110; Sample.sqdusdt 101] empty_tally = Ok t /\
    map hit_symbol (threshold_hits t) = ["BTCUSDT"; "SQDUSDT"]%string /\
    map row_threshold (rows t) = [5; 8; 8] /\
    Forall2 row_of [Sample.btcusdt; Sample.sqdusdt 110; Sample.sqdusdt 101] (rows t) /\
    threshold_hits t = map hit_of_row (List.filter row_is_hit (rows t)).
Proof.
  eexists. split; [vm_compute; reflexivity|]. split; [reflexivity|].
  split; [reflexivity|].
  match goal with
  | |- context [rows ?t] =>
      destruct (report_lists_the_hits
                  [Sample.btcusdt; Sample.sqdusdt 110; Sample.sqdusdt 101] t)
        as (HF & _ & Hh & _); [vm_compute; reflexivity|]
  end.
  split; [exact HF|exact Hh].
Defined.

(** X8: every threshold hit is a profitable position: the number of hits
    is at most [positive_count], which counts the lines with a positive
    ROI and is at most the number of positions. *)
Theorem hits_are_profitable (positions : list Position) (t : tally) :
  visit_all positions empty_tally = Ok t ->
  positive_count t = length (List.filter row_is_positive (rows t)) /\
  (length (threshold_hits t) <= positive_count t)%nat /\
  (positive_count t <= length positions)%nat.
Proof.
  intros H. destruct (visit_all_from_empty _ _ H) as (Hs & Hh & _ & Hp & HF).
  split; [exact Hp|]. rewrite Hh, Hp, length_map. split.
  - apply filter_length_le. eapply Forall_impl; [exact HF|].
    intros r (Hhit & Hpos & _) Hr. apply Hhit in Hr.
    unfold row_is_positive. rewrite Qle_bool_false; [reflexivity|].
    eapply Qlt_le_trans; eassumption.
  - apply (f_equal (@length _)) in Hs. rewrite !length_map in Hs. rewrite Hs.
    apply filter_length_bound.
Qed.

Lemma hits_are_profitable_witness :
  exists t,
    visit_all [Sample.btcusdt; Sample.sqdusdt 110; Sample.sqdusdt 101] empty_tally = Ok t /\
    positive_count t = length (List.filter row_is_positive (rows t)) /\
    (length (threshold_hits t) <= positive_count t)%nat /\
    (positive_count t <= 3)%nat.
Proof.
  eexists. split; [vm_compute; reflexivity|].
  match goal with
  | |- context [rows ?t] =>
      apply (hits_are_profitable
               [Sample.btcusdt; Sample.sqdusdt 110; Sample.sqdusdt 101] t)
  end.
  vm_compute. reflexivity.
Defined.

Lemma visit_complete (pos : Position) (t : tally) :
  complete pos -> exists t', visit pos t = Ok t'.
Proof.
  intros ([sym Es] & [sd Ed] & [entry Ee] & [current Ec] & [qty Eq] & [lev El] & [md Em]).
  unfold visit. rewrite Es, Ed, Ee, Ec, Eq, El, Em. simpl.
  destruct (calculate_roi_total FEE_RATE entry current qty sd lev) as (roi & net & E).
  unfold calculate_roi. rewrite E. simpl.
  destruct (Qle_bool (threshold_for md) roi); eauto.
Qed.

Lemma visit_incomplete (pos : Position) (t : tally) :
  ~ complete pos -> exists k, visit pos t = Raise (KeyError k).
Proof.
  intros H. unfold visit.
  destruct (symbol pos) as [sym|] eqn:Es; simpl; [|eauto].
  destruct (entry_price pos) as [entry|] eqn:Ee; simpl; [|eauto].
  destruct (highest_price pos) as [current|] eqn:Ec; simpl; [|eauto].
  destruct (remaining_qty pos) as [qty|] eqn:Eq; simpl; [|eauto].
  destruct (side pos) as [sd|] eqn:Ed; simpl; [|eauto].
  destruct (leverage pos) as [lev|] eqn:El; simpl; [|eauto].
  destruct (mode pos) as [md|] eqn:Em; simpl; [|eauto].
  exfalso. apply H. unfold complete.
  rewrite Es, Ee, Ec, Eq, Ed, El, Em. repeat split; eauto.
Qed.

Lemma complete_dec (pos : Position) : complete pos \/ ~ complete pos.
Proof.
  unfold complete.
  destruct (symbol pos), (side pos), (entry_price pos), (highest_price pos),
    (remaining_qty pos), (leverage pos), (mode pos);
    first [solve [left; repeat split; eauto]
          | right; intros (H1 & H2 & H3 & H4 & H5 & H6 & H7);
            first [now destruct H1 | now destruct H2 | now destruct H3
                  | now destruct H4 | now destruct H5 | now destruct H6
                  | now destruct H7]].
Qed.

Lemma visit_all_outcome (positions : list Position) (t : tally) :
  (Forall complete positions /\ exists t', visit_all positions t = Ok t') \/
  (Exists (fun pos => ~ complete pos) positions /\
   exists k, visit_all positions t = Raise (KeyError k)).
Proof.
  revert t. induction positions as [|pos positions IH]; intros t; simpl.
  - left. split; [constructor|eauto].
  - destruct (complete_dec pos) as [Hc|Hc].
    + destruct (visit_complete pos t Hc) as [t1 E]. rewrite E. simpl.
      destruct (IH t1) as [[HF Ht]|[HE Hk]].
      * left. split; [now constructor|exact Ht].
      * right. split; [now apply Exists_cons_tl|exact Hk].
    + destruct (visit_incomplete pos t Hc) as [k E]. rewrite E. simpl.
      right. split; [now apply Exists_cons_hd|eauto].
Qed.

Lemma Qnat_positive (n : nat) : 0 < Qnat (S n).
Proof. unfold Qnat, Qlt. simpl. lia. Qed.

Lemma Qnat_le (n m : nat) : (n <= m)%nat -> Qnat n <= Qnat m.
Proof. intros H. unfold Qnat, Qle. simpl. lia. Qed.

Lemma summary_prints (n : nat) (t : tally) :
  summary (S n) t =
    Ok [Summary (S n) (total_roi t / Qnat (S n)) (positive_count t)
          (Qnat (positive_count t) / Qnat (S n) * 100)].
Proof.
  unfold summary. now rewrite !(pydiv_positive _ _ (Qnat_positive n)).
Qed.

(** The detail lines of hits whose entry price is not zero. *)
Lemma details_listed (hits : list hit) (index : nat) :
  Forall (fun h => ~ hit_entry h == 0) hits ->
  exists listed,
    details index hits = Ok listed /\
    length listed = length hits /\
    forall i entry_line,
      listed !! i = Some entry_line ->
      exists h move,
        hits !! i = Some h /\
        entry_line = HitDetail (index + i) h move /\
        move * hit_entry h == (hit_current h - hit_entry h) * 100.
Proof.
  intros HF. revert index. induction HF as [|h hits Hh _ IH]; intros index; simpl.
  - exists []. repeat split. intros i entry_line H. discriminate.
  - unfold pydiv. rewrite (Qeq_bool_false _ _ Hh). simpl.
    destruct (IH (S index)) as (listed & E & Hlen & Hnth). rewrite E. simpl.
    eexists. split; [reflexivity|]. split; [simpl; now rewrite Hlen|].
    intros [|i] entry_line; simpl.
    + intros [= <-]. exists h, ((hit_current h - hit_entry h) / hit_entry h * 100).
      split; [reflexivity|]. split; [now rewrite Nat.add_0_r|]. now field.
    + intros H. destruct (Hnth _ _ H) as (h' & move & Hl & -> & Hm).
      exists h', move. split; [exact Hl|]. split; [f_equal; lia|exact Hm].
Qed.

(** X9: the report runs to its end exactly on a snapshot whose records all
    hold the seven keys; otherwise it stops with a [KeyError] and prints
    neither summary nor hit list.  No snapshot makes it divide by zero:
    the average is taken only of a non-empty table, and the price move
    only of hits, whose entry price is not zero. *)
Theorem report_completes_or_key_error (positions : list Position) :
  (Forall complete positions /\
   exists lines, main (Data positions) = Printed lines) \/
  (Exists (fun pos => ~ complete pos) positions /\
   exists k, main (Data positions) = Uncaught (KeyError k)).
Proof.
  unfold main.
  destruct (visit_all_outcome positions empty_tally) as [[HF [t E]]|[HE [k E]]].
  - left. split; [exact HF|]. rewrite E. simpl.
    destruct (visit_all_from_empty _ _ E) as (_ & Hh & _ & _ & Hrows).
    assert (Hs : exists footer, summary (length positions) t = Ok footer).
    { destruct (length positions); [simpl; eauto|rewrite summary_prints; eauto]. }
    destruct Hs as [footer ->]. simpl.
    assert (Hx : exists listed, exits t = Ok listed).
    { unfold exits. destruct (threshold_hits t) as [|h hits] eqn:Eh; [eauto|].
      destruct (details_listed (h :: hits) 1) as (listed & -> & _); [|simpl; eauto].
      rewrite Hh. apply Forall_forall. intros x Hx.
      apply list_elem_of_In, in_map_iff in Hx as (r & <- & Hr).
      apply filter_In in Hr as [Hin Hhit]. rewrite Forall_forall in Hrows.
      apply list_elem_of_In in Hin.
      destruct (Hrows r Hin) as (Hiff & Hpos & Hentry). simpl. apply Hentry.
      apply Hiff in Hhit. eapply Qlt_le_trans; eassumption. }
    destruct Hx as [listed ->]. simpl. eauto.
  - right. split; [exact HE|]. rewrite E. simpl. eauto.
Qed.

(** X10: for a snapshot with at least one position the summary line gives
    the number of positions, the mean of the ROIs of the table, the number
    of profitable positions and their share in percent, which lies between
    0 and 100. *)
Theorem summary_figures (positions : list Position) (t : tally) :
  positions <> [] ->
  visit_all positions empty_tally = Ok t ->
  exists avg_roi win_rate,
    summary (length positions) t =
      Ok [Summary (length positions) avg_roi (positive_count t) win_rate] /\
    avg_roi * Qnat (length positions) == sum_roi (rows t) /\
    win_rate * Qnat (length positions) == 100 * Qnat (positive_count t) /\
    0 <= win_rate /\ win_rate <= 100.
Proof.
  intros Hne H.
  destruct (visit_all_from_empty _ _ H) as (_ & _ & Ht & _ & _).
  destruct (hits_are_profitable _ _ H) as (_ & _ & Hle).
  destruct positions as [|pos rest]; [contradiction|]. simpl length in *.
  rewrite summary_prints. eexists _, _. split; [reflexivity|].
  pose proof (Qnat_positive (length rest)) as Hn.
  pose proof (Qlt_nonzero _ Hn) as Hn0.
  split; [rewrite <- Ht; now field|]. split; [now field|].
  assert (Hp : 0 <= Qnat (positive_count t))
    by (apply (Qnat_le 0); lia).
  apply Qnat_le in Hle.
  pose proof (Qdiv_le_mono _ _ _ Hn Hp) as H0.
  pose proof (Qdiv_le_mono _ _ _ Hn Hle) as H1.
  unfold Qdiv in H0 at 1. rewrite Qmult_0_l in H0.
  unfold Qdiv in H1 at 2. rewrite (Qmult_inv_r _ Hn0) in H1.
  split; lra.
Qed.

Lemma summary_figures_witness :
  exists t avg_roi win_rate,
    visit_all [Sample.btcusdt; Sample.sqdusdt 110; Sample.sqdusdt 101] empty_tally = Ok t /\
    summary 3 t = Ok [Summary 3 avg_roi (positive_count t) win_rate] /\
    avg_roi * Qnat 3 == sum_roi (rows t) /\
    win_rate * Qnat 3 == 100 * Qnat (positive_count t) /\
    0 <= win_rate /\ win_rate <= 100.
Proof.
  eexists.
  match goal with
  | |- exists a w, visit_all ?ps _ = Ok ?t /\ _ =>
      assert (E : visit_all ps empty_tally = Ok t) by (vm_compute; reflexivity);
      destruct (summary_figures ps t) as (a & w & H); [discriminate|exact E|];
      exists a, w; split; [exact E|exact H]
  end.
Defined.

(** X11: below the table the report either says that monitoring is active,
    when no line of the table is marked as a hit, or lists the marked lines
    in the order of the table, numbered from 1, each with its price move
    (reference - entry) / entry in percent, and closes with their number. *)
Theorem exit_section (positions : list Position) (t : tally) :
  visit_all positions empty_tally = Ok t ->
  (List.filter row_is_hit (rows t) = [] -> exits t = Ok [MonitoringActive]) /\
  (List.filter row_is_hit (rows t) <> [] ->
   exists listed,
     exits t =
       Ok (HitsHeader :: listed
             ++ [ReadyForExit (length (List.filter row_is_hit (rows t)))]) /\
     length listed = length (List.filter row_is_hit (rows t)) /\
     forall i entry_line,
       listed !! i = Some entry_line ->
       exists r move,
         List.filter row_is_hit (rows t) !! i = Some r /\
         entry_line = HitDetail (S i) (hit_of_row r) move /\
         move * row_entry r == (row_current r - row_entry r) * 100).
Proof.
  intros H. destruct (visit_all_from_empty _ _ H) as (_ & Hh & _ & _ & Hrows).
  unfold exits. rewrite Hh.
  set (marked := List.filter row_is_hit (rows t)).
  split; [intros ->; reflexivity|]. intros Hne.
  assert (HF : Forall (fun h => ~ hit_entry h == 0) (map hit_of_row marked)).
  { apply Forall_forall. intros x Hx.
    apply list_elem_of_In, in_map_iff in Hx as (r & <- & Hr).
    apply filter_In in Hr as [Hin Hhit]. rewrite Forall_forall in Hrows.
    apply list_elem_of_In in Hin.
    destruct (Hrows r Hin) as (Hiff & Hpos & Hentry). simpl. apply Hentry.
    apply Hiff in Hhit. eapply Qlt_le_trans; eassumption. }
  destruct (details_listed _ 1 HF) as (listed & E & Hlen & Hnth).
  rewrite length_map in Hlen.
  destruct (map hit_of_row marked) as [|h hits] eqn:Em.
  { destruct marked; [contradiction|discriminate]. }
  rewrite E. simpl. exists listed.
  replace (S (length hits)) with (length marked)
    by (rewrite <- (length_map hit_of_row marked), Em; reflexivity).
  split; [reflexivity|]. split; [exact Hlen|].
  intros i entry_line Hi. destruct (Hnth _ _ Hi) as (h' & move & Hl & -> & Hm).
  rewrite <- Em, list_lookup_fmap in Hl.
  destruct (marked !! i) as [r|]; [|discriminate]. injection Hl as <-.
  exists r, move. split; [reflexivity|]. split; [reflexivity|exact Hm].
Qed.

Lemma exit_section_witness :
  exists t,
    visit_all [Sample.btcusdt; Sample.sqdusdt 110; Sample.sqdusdt 101] empty_tally = Ok t /\
    length (List.filter row_is_hit (rows t)) = 2%nat /\
    exists listed,
      exits t = Ok (HitsHeader :: listed ++ [ReadyForExit 2]) /\
      length listed = 2%nat.
Proof.
  eexists.
  match goal with
  | |- visit_all ?ps _ = Ok ?t /\ _ =>
      assert (E : visit_all ps empty_tally = Ok t) by (vm_compute; reflexivity);
      destruct (proj2 (exit_section ps t E)) as (listed & Hx & Hl & _);
        [vm_compute; discriminate|];
      split; [exact E|]; split; [reflexivity|]; exists listed; split; [exact Hx|exact Hl]
  end.
Defined.

End ReportClaims.

(** * Further properties of the watcher of monitor_sqdusdt_live.py *)

Section LiveInvariants.

Local Open Scope Q_scope.

Import Live.

(** Every pass is counted, whatever it finds. *)
Lemma tick_counts (o : observation) (s : session) :
  check_count (tick o s).1.2 = S (check_count s).
Proof.
  unfold tick. destruct (snapshot o) as [| |positions]; try reflexivity.
  destruct (find_in positions) as [[pos|]|e]; try reflexivity.
  - destruct (measure pos); [|reflexivity].
    now destruct (check_logs_for_success (server_log o)).
  - now destruct (check_logs_for_success (server_log o)).
Qed.

(** A pass leaves the history as it is or appends one sample, which is
    then the last ROI. *)
Lemma tick_history (o : observation) (s : session) :
  (roi_history (tick o s).1.2 = roi_history s /\
   last_roi (tick o s).1.2 = last_roi s) \/
  (exists roi, roi_history (tick o s).1.2 = roi_history s ++ [roi] /\
               last_roi (tick o s).1.2 = Some roi).
Proof.
  unfold tick. destruct (snapshot o) as [| |positions]; try (left; split; reflexivity).
  destruct (find_in positions) as [[pos|]|e]; try (left; split; reflexivity).
  - destruct (measure pos) as [roi|e]; [|left; split; reflexivity].
    destruct (check_logs_for_success (server_log o)). right. exists roi. split; reflexivity.
  - destruct (check_logs_for_success (server_log o)). left. split; reflexivity.
Qed.

Lemma loop_invariant (trace : list observation) (s : session) :
  last (roi_history s) = last_roi s ->
  (length (roi_history s) <= check_count s)%nat ->
  let s' := (loop trace s).1.2 in
  last (roi_history s') = last_roi s' /\
  (length (roi_history s') <= check_count s')%nat /\
  (check_count s' <= check_count s + length trace)%nat /\
  roi_history s `prefix_of` roi_history s'.
Proof.
  revert s. induction trace as [|o trace IH]; intros s Hl Hc; simpl.
  - repeat split; auto; lia.
  - pose proof (tick_counts o s) as Hn. pose proof (tick_history o s) as Hh.
    destruct (tick o s) as [[out s1] c]. simpl in Hn, Hh.
    assert (Hl1 : last (roi_history s1) = last_roi s1).
    { destruct Hh as [[-> ->]|(roi & -> & ->)]; [exact Hl|apply last_snoc]. }
    assert (Hc1 : (length (roi_history s1) <= check_count s1)%nat).
    { destruct Hh as [[-> _]|(roi & -> & _)]; [lia|].
      rewrite length_app. simpl. lia. }
    assert (Hp1 : roi_history s `prefix_of` roi_history s1).
    { destruct Hh as [[-> _]|(roi & -> & _)]; [reflexivity|now apply prefix_app_r]. }
    destruct c.
    + specialize (IH s1 Hl1 Hc1). destruct (loop trace s1) as [[out' s'] c'].
      simpl in *. destruct IH as (? & ? & ? & ?).
      repeat split; auto; [lia|]. etrans; eassumption.
    + simpl. repeat split; auto. lia.
Qed.

(** X12: in every session of the live watcher the ROI history only grows,
    the last ROI is the last sample of the history, and there are at most
    as many samples as checks, one check per pass of the loop. *)
Theorem live_history_invariant (trace : list observation) :
  let s := (main trace).1.2 in
  last (roi_history s) = last_roi s /\
  (length (roi_history s) <= check_count s)%nat /\
  (check_count s <= length trace)%nat /\
  forall more : list observation,
    roi_history s `prefix_of` roi_history (loop more s).1.2.
Proof.
  destruct (loop_invariant trace start eq_refl) as (Hl & Hc & Hn & _); [simpl; lia|].
  unfold main. simpl in *. repeat split; auto.
  intros more. now apply loop_invariant.
Qed.

(** X13: the live watcher stops on nothing but a snapshot without the
    symbol: over passes that all find the position or fail, whatever the
    ROI and however many, the loop is still running and has counted every
    pass. *)
Theorem live_runs_until_absent (trace : list observation) (s : session) :
  Forall (fun o => ~ absent o) trace ->
  (loop trace s).2 = None /\
  check_count (loop trace s).1.2 = (check_count s + length trace)%nat.
Proof.
  intros H. revert s. induction H as [|o trace Ho _ IH]; intros s; simpl.
  - split; [reflexivity|lia].
  - pose proof (tick_counts o s) as Hn. pose proof (tick_break o s) as Hb.
    destruct (tick o s) as [[out s1] c]. simpl in Hn, Hb. destruct c.
    + specialize (IH s1). destruct (loop trace s1) as [[out' s'] c']. simpl in *.
      destruct IH as [-> ->]. split; [reflexivity|lia].
    + exfalso. now apply Ho, Hb.
Qed.

Lemma live_runs_until_absent_witness :
  (loop [Sample.live_pass (Data [Sample.sqdusdt 110]) None;
         Sample.live_pass NoData None;
         Sample.live_pass (Data [Sample.without_leverage]) None] start).2 = None /\
  check_count
    (loop [Sample.live_pass (Data [Sample.sqdusdt 110]) None;
           Sample.live_pass NoData None;
           Sample.live_pass (Data [Sample.without_leverage]) None] start).1.2
  = (0 + 3)%nat.
Proof.
  apply (live_runs_until_absent
           [Sample.live_pass (Data [Sample.sqdusdt 110]) None;
            Sample.live_pass NoData None;
            Sample.live_pass (Data [Sample.without_leverage]) None] start).
  repeat constructor; intros (positions & Hs & Hf); simpl in Hs;
    try discriminate; injection Hs as <-; vm_compute in Hf; discriminate.
Defined.


(** X15: the four status lines of the live watcher split the ROI axis at
    8, 7.5 and 7 percent, and the progress bar is full exactly when the
    line is the hit. *)
Theorem live_display_bands (roi : Q) (st : status) :
  ((8 <= roi /\ display roi st = Hit roi st) \/
   (7.5 <= roi /\ roi < 8 /\ display roi st = Critical roi (THRESHOLD - roi)) \/
   (7 <= roi /\ roi < 7.5 /\ display roi st = Close roi (THRESHOLD - roi)) \/
   (roi < 7 /\
    display roi st = Progress roi (THRESHOLD - roi) (roi / THRESHOLD * 100))) /\
  (print_status_bar roi = "██████████"%string <-> 8 <= roi) /\
  (print_status_bar roi = "██████████"%string <-> display roi st = Hit roi st).
Proof.
  assert (Hbar : print_status_bar roi = "██████████"%string <-> 8 <= roi).
  { unfold print_status_bar.
    destruct (Qle_bool 2 roi) eqn:E2; simpl;
      [|split; [discriminate|]; intros H; exfalso;
        assert (Qle_bool 2 roi = true) by (apply Qle_bool_iff; lra); congruence].
    destruct (Qle_bool 4 roi) eqn:E4; simpl;
      [|split; [discriminate|]; intros H; exfalso;
        assert (Qle_bool 4 roi = true) by (apply Qle_bool_iff; lra); congruence].
    destruct (Qle_bool 6 roi) eqn:E6; simpl;
      [|split; [discriminate|]; intros H; exfalso;
        assert (Qle_bool 6 roi = true) by (apply Qle_bool_iff; lra); congruence].
    destruct (Qle_bool 8 roi) eqn:E8; simpl.
    - split; [intros _; now apply Qle_bool_iff|reflexivity].
    - split; [discriminate|]. intros H. apply Qle_bool_iff in H. congruence. }
  unfold display, THRESHOLD in *.
  destruct (Qle_bool 8 roi) eqn:E8.
  - apply Qle_bool_iff in E8. split; [left; split; [exact E8|reflexivity]|].
    split; [exact Hbar|]. rewrite Hbar. tauto.
  - assert (H8 : roi < 8).
    { destruct (Qlt_le_dec roi 8) as [|H]; [assumption|].
      apply Qle_bool_iff in H. congruence. }
    assert (Hno : ~ 8 <= roi) by (intros H; exact (Qlt_not_le _ _ H8 H)).
    split; [|split; [exact Hbar|rewrite Hbar; split; [tauto|]]].
    + destruct (Qle_bool (8 - roi) 0.5) eqn:E5.
      { apply Qle_bool_iff in E5. right. left. repeat split; [lra|exact H8]. }
      assert (H75 : roi < 7.5).
      { destruct (Qlt_le_dec roi 7.5) as [|H]; [assumption|].
        assert (Qle_bool (8 - roi) 0.5 = true) by (apply Qle_bool_iff; lra).
        congruence. }
      destruct (Qle_bool (8 - roi) 1) eqn:E1.
      { apply Qle_bool_iff in E1. right. right. left. repeat split; [lra|exact H75]. }
      assert (H7 : roi < 7).
      { destruct (Qlt_le_dec roi 7) as [|H]; [assumption|].
        assert (Qle_bool (8 - roi) 1 = true) by (apply Qle_bool_iff; lra).
        congruence. }
      right. right. right. split; [exact H7|reflexivity].
    + destruct (Qle_bool (8 - roi) 0.5); [discriminate|].
      destruct (Qle_bool (8 - roi) 1); discriminate.
Qed.

End LiveInvariants.

(** * Further properties of the watcher of monitor_sqdusdt.py *)

Section MonitorInvariants.

Local Open Scope Q_scope.

Import Monitor.

(** With the table of this script every mode has the threshold 8. *)
Lemma measure_limit (pos : Position) (roi limit : Q) :
  measure pos = Ok (roi, limit) -> limit = 8.
Proof.
  unfold measure.
  destruct (entry_price pos); simpl; [|discriminate].
  destruct (highest_price pos); simpl; [|discriminate].
  destruct (remaining_qty pos); simpl; [|discriminate].
  destruct (side pos); simpl; [|discriminate].
  destruct (leverage pos); simpl; [|discriminate].
  destruct (calculate_roi _ _ _ _ _); simpl; [|discriminate].
  destruct (mode pos) as [md|]; simpl; [|discriminate].
  intros [= _ <-]. unfold dict_get, THRESHOLDS.
  destruct (({[ "swing"%string := 8 ]} : gmap string Q) !! md) as [pct|] eqn:E;
    [|reflexivity].
  now apply lookup_singleton_Some in E as [_ <-].
Qed.

Lemma Qle_bool_false_lt (a b : Q) : Qle_bool a b = false -> b < a.
Proof.
  intros H. destruct (Qlt_le_dec b a) as [|Hle]; [assumption|].
  apply Qle_bool_iff in Hle. congruence.
Qed.

(** What a printed line may show. *)
Lemma substring_length (n : nat) (s : string) :
  (String.length (String.substring 0 n s) <= n)%nat.
Proof.
  revert s. induction n as [|n IH]; intros s; destruct s as [|c s]; simpl; try lia.
  specialize (IH s). lia.
Qed.

Lemma status_bar_not_full (roi : Q) : roi < 8 -> status_bar roi <> "██████████"%string.
Proof.
  intros H. unfold status_bar.
  destruct (Qle_bool 6 roi); simpl; [|discriminate].
  destruct (Qle_bool 7 roi); simpl; [|discriminate].
  destruct (Qle_bool 7.5 roi); simpl; [|discriminate].
  rewrite (Qle_bool_false _ _ H). discriminate.
Qed.

(** What the loop keeps true of the session. *)
Lemma iteration_keeps (o : observation) (s : session) :
  (forall r, last_roi s = Some r -> r < 8) ->
  (forall l, threshold s = Some l -> l = 8) ->
  (last_roi s <> None -> threshold s <> None) ->
  Forall (fun sample => sample.2 < 8) (roi_progression s) ->
  let s' := (iteration o s).1.2 in
  Forall within_bounds (iteration o s).1.1 /\
  (forall r, last_roi s' = Some r -> r < 8) /\
  (forall l, threshold s' = Some l -> l = 8) /\
  (last_roi s' <> None -> threshold s' <> None) /\
  match (iteration o s).2 with
  | Continue => Forall (fun sample => sample.2 < 8) (roi_progression s')
  | _ =>
      exists latest,
        roi_progression s' = roi_progression s ++ latest /\
        (length latest <= 1)%nat /\ Forall (fun sample => 8 <= sample.2) latest
  end.
Proof.
  intros Hr Hl Ht Hp. unfold iteration.
  assert (Hsame : exists latest : list (string * Q),
             roi_progression s = roi_progression s ++ latest /\
             (length latest <= 1)%nat /\ Forall (fun sample => 8 <= sample.2) latest).
  { exists []. rewrite app_nil_r. repeat split; [simpl; lia|constructor]. }
  destruct (negb (Qle_bool (elapsed o) MAX_MONITORING_TIME)); simpl.
  { split; [repeat constructor|]. auto. }
  destruct (find_sqdusdt_position (snapshot o)) as [[pos|]|e]; simpl.
  - destruct (measure pos) as [[roi limit]|e] eqn:Em; simpl.
    + pose proof (measure_limit _ _ _ Em) as ->.
      destruct (Qle_bool 8 roi) eqn:Eh; simpl.
      * apply Qle_bool_iff in Eh.
        split; [repeat constructor; auto|].
        split; [exact Hr|]. split; [now intros l [= <-]|].
        split; [discriminate|].
        exists [(stamp o, roi)]. split; [reflexivity|].
        split; [simpl; lia|]. now repeat constructor.
      * apply Qle_bool_false_lt in Eh.
        split.
        { constructor; [|constructor; [now right|constructor]].
          split; [exact Eh|]. split; [lra|now apply status_bar_not_full]. }
        split; [now intros r [= <-]|]. split; [now intros l [= <-]|].
        split; [discriminate|].
        apply Forall_app. split; [exact Hp|]. now repeat constructor.
    + split; [constructor|]. auto.
  - split; [repeat constructor|]. auto.
  - split; [constructor|]. auto.
Qed.

Lemma loop_keeps (trace : list observation) (s : session) :
  (forall r, last_roi s = Some r -> r < 8) ->
  (forall l, threshold s = Some l -> l = 8) ->
  (last_roi s <> None -> threshold s <> None) ->
  Forall (fun sample => sample.2 < 8) (roi_progression s) ->
  let s' := (loop trace s).1.2 in
  Forall within_bounds (loop trace s).1.1 /\
  (forall r, last_roi s' = Some r -> r < 8) /\
  (forall l, threshold s' = Some l -> l = 8) /\
  (last_roi s' <> None -> threshold s' <> None) /\
  exists earlier latest,
    roi_progression s' = earlier ++ latest /\
    Forall (fun sample => sample.2 < 8) earlier /\
    (length latest <= 1)%nat /\ Forall (fun sample => 8 <= sample.2) latest.
Proof.
  revert s. induction trace as [|o trace IH]; intros s Hr Hl Ht Hp; simpl.
  - repeat split; auto. exists (roi_progression s), []. rewrite app_nil_r.
    repeat split; auto.
  - pose proof (iteration_keeps o s Hr Hl Ht Hp) as Hk.
    destruct (iteration o s) as [[out s1] c]. simpl in Hk.
    destruct Hk as (Ho & Hr1 & Hl1 & Ht1 & Hc).
    destruct c; simpl.
    + specialize (IH s1 Hr1 Hl1 Ht1 Hc).
      destruct (loop trace s1) as [[out' s'] c']. simpl in *.
      destruct IH as (Ho' & ? & ? & ? & ?). repeat split; auto.
      apply Forall_app. now split.
    + destruct Hc as (latest & -> & ? & ?). repeat split; auto.
      exists (roi_progression s), latest. auto.
    + destruct Hc as (latest & -> & ? & ?). repeat split; auto.
      exists (roi_progression s), latest. auto.
Qed.

Lemma final_report_keeps (s : session) (log : log_file) :
  (forall r, last_roi s = Some r -> r < 8) ->
  (forall l, threshold s = Some l -> l = 8) ->
  Forall within_bounds (final_report s log).1.
Proof.
  intros Hr Hl. unfold final_report, progression.
  destruct (position_closed s), (last_roi s) as [r|];
    try specialize (Hr r eq_refl);
    try destruct (check_server_log log) as [entry|];
    try destruct (Qeq_bool r 0);
    try (destruct (threshold s) as [l|]; [rewrite (Hl l eq_refl)|]);
    destruct (roi_progression s); simpl;
    repeat first [apply List.Forall_nil | apply List.Forall_cons; [simpl|]];
    first [exact I | assumption | apply substring_length | split; [assumption|lra]].
Qed.

Lemma start_keeps (trace : list observation) :
  let s' := (loop trace start).1.2 in
  Forall within_bounds (loop trace start).1.1 /\
  (forall r, last_roi s' = Some r -> r < 8) /\
  (forall l, threshold s' = Some l -> l = 8) /\
  (last_roi s' <> None -> threshold s' <> None) /\
  exists earlier latest,
    roi_progression s' = earlier ++ latest /\
    Forall (fun sample => sample.2 < 8) earlier /\
    (length latest <= 1)%nat /\ Forall (fun sample => 8 <= sample.2) latest.
Proof.
  apply loop_keeps; simpl.
  - discriminate.
  - discriminate.
  - intros H. now contradict H.
  - constructor.
Qed.

(** X16: what monitor_sqdusdt.py can print.  The threshold is 8 percent in
    every pass; a status line shows an ROI below 8 with a positive gap and
    never the full bar, so the branch that prints the full bar is dead; the
    "final ROI" of a closed position and the "last ROI" of a timed-out
    session are ROIs below 8, also after a threshold hit; the log excerpt
    has at most 200 characters; the script sleeps 5 or 10 seconds. *)
Theorem monitor_output_bounds (trace : list observation) (log : log_file) :
  Forall within_bounds (main trace log).1.1.
Proof.
  unfold main.
  destruct (start_keeps trace) as (Ho & Hr & Hl & _ & _).
  destruct (loop trace start) as [[out s] c]. simpl in *.
  destruct c as [[| |e]|]; simpl; try exact Ho;
    pose proof (final_report_keeps s log Hr Hl) as Hf;
    destruct (final_report s log) as [out' st]; simpl in *;
    apply Forall_app; now split.
Qed.

Lemma iteration_counts (o : observation) (s : session) :
  let s' := (iteration o s).1.2 in
  (length (roi_progression s') + check_count s
     <= length (roi_progression s) + check_count s')%nat /\
  (check_count s <= check_count s' <= S (check_count s))%nat.
Proof.
  unfold iteration.
  destruct (negb (Qle_bool (elapsed o) MAX_MONITORING_TIME)); simpl; [lia|].
  destruct (find_sqdusdt_position (snapshot o)) as [[pos|]|e]; simpl; try lia.
  destruct (measure pos) as [[roi limit]|e]; simpl; [|lia].
  destruct (Qle_bool limit roi); simpl; rewrite length_app; simpl; lia.
Qed.

Lemma loop_counts (trace : list observation) (s : session) :
  let s' := (loop trace s).1.2 in
  (length (roi_progression s') + check_count s
     <= length (roi_progression s) + check_count s')%nat /\
  (check_count s' <= check_count s + length trace)%nat.
Proof.
  revert s. induction trace as [|o trace IH]; intros s; simpl; [lia|].
  pose proof (iteration_counts o s) as Hi.
  destruct (iteration o s) as [[out s1] c]. simpl in Hi.
  destruct c; simpl; try lia.
  specialize (IH s1). destruct (loop trace s1) as [[out' s'] c']. simpl in *. lia.
Qed.

(** X17: the ROI history of monitor_sqdusdt.py holds samples below the
    threshold of 8 percent, except for a last sample at or above it when
    the loop ended on a threshold hit; it has at most one sample per
    check, and at most one check per pass of the loop. *)
Theorem monitor_history_shape (trace : list observation) (log : log_file) :
  let s := (main trace log).1.2 in
  (exists earlier latest,
      roi_progression s = earlier ++ latest /\
      Forall (fun sample => sample.2 < 8) earlier /\
      (length latest <= 1)%nat /\
      Forall (fun sample => 8 <= sample.2) latest) /\
  (length (roi_progression s) <= check_count s)%nat /\
  (check_count s <= length trace)%nat.
Proof.
  unfold main.
  destruct (start_keeps trace) as (_ & _ & _ & _ & H).
  pose proof (loop_counts trace start) as Hn.
  destruct (loop trace start) as [[out s] c]. simpl in *.
  destruct c as [[| |e]|]; simpl; try (split; [exact H|lia]);
    destruct (final_report s log); simpl; (split; [exact H|lia]).
Qed.

Lemma iteration_output (o : observation) (s : session) :
  Forall (fun e => report_line e = false) (iteration o s).1.1.
Proof.
  unfold iteration.
  destruct (negb (Qle_bool (elapsed o) MAX_MONITORING_TIME)); simpl;
    [repeat constructor|].
  destruct (find_sqdusdt_position (snapshot o)) as [[pos|]|e]; simpl;
    try (repeat constructor).
  destruct (measure pos) as [[roi limit]|e]; simpl; [|constructor].
  destruct (Qle_bool limit roi); simpl; repeat constructor.
Qed.

Lemma loop_output (trace : list observation) (s : session) :
  Forall (fun e => report_line e = false) (loop trace s).1.1.
Proof.
  revert s. induction trace as [|o trace IH]; intros s; simpl; [constructor|].
  pose proof (iteration_output o s) as Ho.
  destruct (iteration o s) as [[out s1] c]. simpl in Ho.
  destruct c; simpl; try exact Ho.
  specialize (IH s1). destruct (loop trace s1) as [[out' s'] c']. simpl in *.
  apply Forall_app. now split.
Qed.

(** X18: when the first check of monitor_sqdusdt.py already ends the loop,
    on a snapshot without the symbol, a failed query or a threshold hit,
    the final report stops with a [TypeError] at the line of the final ROI:
    there is no earlier ROI to print, and the server log is not read. *)
Theorem closed_on_first_check_fails (o : observation) (rest : list observation)
    (log : log_file) :
  elapsed o <= MAX_MONITORING_TIME ->
  find_sqdusdt_position (snapshot o) = Ok None \/
  (exists pos roi limit,
      find_sqdusdt_position (snapshot o) = Ok (Some pos) /\
      measure pos = Ok (roi, limit) /\ limit <= roi) ->
  exists printed s,
    main (o :: rest) log =
      (printed ++ [SessionComplete; PositionClosed], s, FAILED TypeError) /\
    check_count s = 1%nat /\
    Forall (fun e => report_line e = false) printed.
Proof.
  intros Ht H. unfold main. simpl.
  destruct H as [Hf|(pos & roi & limit & Hf & Hm & Hle)].
  - rewrite (iteration_not_found _ _ Ht Hf). simpl.
    exists [NotFound]. eexists. split; [reflexivity|]. split; [reflexivity|].
    repeat constructor.
  - rewrite (iteration_hit _ _ _ _ _ Ht Hf Hm Hle). simpl.
    exists [ThresholdHit roi limit; Sleep 5]. eexists.
    split; [reflexivity|]. split; [reflexivity|]. repeat constructor.
Qed.

Lemma closed_on_first_check_fails_witness :
  exists printed s,
    main (Sample.hit_pass 0 :: [Sample.quiet_pass 10]) (Some [Sample.plain_line]) =
      (printed ++ [SessionComplete; PositionClosed], s, FAILED TypeError) /\
    check_count s = 1%nat /\
    Forall (fun e => report_line e = false) printed.
Proof.
  apply (closed_on_first_check_fails (Sample.hit_pass 0) [Sample.quiet_pass 10]
           (Some [Sample.plain_line])).
  - vm_compute. discriminate.
  - right. eexists _, _, _. split; [reflexivity|].
    split; [vm_compute; reflexivity|]. vm_compute. discriminate.
Defined.

(** X19: a record that lacks a key the script reads ends monitor_sqdusdt.py
    at once: the exception leaves [main], the session is neither closed nor
    timed out, and the final report with the ROI history is not printed. *)
Theorem monitor_missing_key_aborts (pre : list observation) (o : observation)
    (rest : list observation) (log : log_file) (e : exn) :
  Forall below_threshold pre ->
  elapsed o <= MAX_MONITORING_TIME ->
  find_sqdusdt_position (snapshot o) = Raise e \/
  (exists pos, find_sqdusdt_position (snapshot o) = Ok (Some pos) /\
               measure pos = Raise e) ->
  (main (pre ++ o :: rest) log).2 = FAILED e /\
  position_closed (main (pre ++ o :: rest) log).1.2 = false /\
  Forall (fun line => report_line line = false) (main (pre ++ o :: rest) log).1.1.
Proof.
  intros Hpre Ht H.
  destruct (monitor_loop_through pre (o :: rest) start Hpre)
    as (out1 & s1 & El & Hc & _); [intros H0; now contradict H0|].
  pose proof (loop_output (pre ++ o :: rest) start) as Hout.
  assert (Ei : exists s2, iteration o s1 = ([], s2, Abort e) /\
                          position_closed s2 = position_closed s1).
  { unfold iteration. rewrite (Qle_bool_true _ _ Ht). simpl.
    destruct H as [->|(pos & -> & ->)]; eexists; split; reflexivity. }
  destruct Ei as (s2 & Ei & Hc2).
  simpl in El. rewrite Ei in El.
  unfold main. rewrite El in *. simpl in *.
  split; [reflexivity|]. split; [congruence|exact Hout].
Qed.

Lemma monitor_missing_key_aborts_witness :
  (main ([Sample.quiet_pass 0] ++
         {| elapsed := 10; stamp := "12:00:10";
            snapshot := Data [Sample.without_leverage] |} :: []) None).2
    = FAILED (KeyError "leverage").
Proof.
  apply (monitor_missing_key_aborts [Sample.quiet_pass 0]
           {| elapsed := 10; stamp := "12:00:10";
              snapshot := Data [Sample.without_leverage] |} [] None
           (KeyError "leverage")).
  - constructor; [|constructor]. apply quiet_pass_below. vm_compute. discriminate.
  - vm_compute. discriminate.
  - right. exists Sample.without_leverage. split; reflexivity.
Defined.

End MonitorInvariants.

(** * Further properties of the snapshot search and the log checks *)

Section SearchFacts.

(** X20: both watchers take the first record of the snapshot whose symbol
    is SQDUSDT; records behind it are not read, so a later record without
    a symbol does no harm, while one in front of it raises [KeyError]; the
    search reports absence only when every record carries another
    symbol. *)
Theorem find_first_match (positions : list Position) :
  match Monitor.find_in positions with
  | Ok (Some pos) =>
      exists before behind,
        positions = before ++ pos :: behind /\
        symbol pos = Some "SQDUSDT"%string /\
        Forall (fun p => exists s, symbol p = Some s /\ s <> "SQDUSDT"%string) before
  | Ok None =>
      Forall (fun p => exists s, symbol p = Some s /\ s <> "SQDUSDT"%string) positions
  | Raise e =>
      e = KeyError "symbol" /\
      exists before p behind,
        positions = before ++ p :: behind /\
        symbol p = None /\
        Forall (fun p => exists s, symbol p = Some s /\ s <> "SQDUSDT"%string) before
  end /\
  Live.find_in positions = Monitor.find_in positions.
Proof.
  split; [|induction positions as [|p l IH]; simpl; [reflexivity|];
           destruct (symbol p) as [s|]; simpl; [|reflexivity];
           destruct (String.eqb s "SQDUSDT"); [reflexivity|exact IH]].
  induction positions as [|p l IH]; simpl; [constructor|].
  destruct (symbol p) as [s|] eqn:Es; simpl.
  - destruct (String.eqb_spec s "SQDUSDT") as [->|Hne].
    + exists [], l. repeat split; [exact Es|constructor].
    + assert (Hp : exists s0, symbol p = Some s0 /\ s0 <> "SQDUSDT"%string) by eauto.
      destruct (Monitor.find_in l) as [[pos|]|e].
      * destruct IH as (before & behind & -> & Hs & HF).
        exists (p :: before), behind. repeat split; [exact Hs|now constructor].
      * now constructor.
      * destruct IH as (-> & before & q & behind & -> & Hq & HF).
        split; [reflexivity|]. exists (p :: before), q, behind.
        repeat split; [exact Hq|now constructor].
  - split; [reflexivity|]. exists [], p, l. repeat split; [exact Es|constructor].
Qed.

(** X21: the live watcher reads the last 500 lines of the log, or all of
    them when the file is shorter. *)
Theorem window_is_recent_suffix (lines : list log_line) :
  exists old,
    lines = old ++ Live.window lines /\
    length (Live.window lines) = Nat.min 500 (length lines).
Proof.
  exists (take (length lines - 500) lines). unfold Live.window. split.
  - now rewrite take_drop.
  - rewrite length_drop. lia.
Qed.

(** X22: a confirmation that is older than the last 500 lines is not seen:
    when none of the last 500 lines is a match, the check returns
    [(False, None)] whatever the older lines hold. *)
Theorem stale_match_ignored (old recent : list log_line) :
  length recent = 500%nat ->
  Forall (fun l => Live.is_match l = false) recent ->
  Live.check_logs_for_success (Some (old ++ recent)) = (Live.SFalse, None).
Proof.
  intros Hlen HF. simpl. rewrite (window_recent _ _ Hlen).
  apply scan_nothing. now apply List.Forall_rev.
Qed.

Lemma stale_match_ignored_witness :
  Live.check_logs_for_success
    (Some ([Sample.full_close_line] ++ replicate 500 Sample.plain_line))
  = (Live.SFalse, None) /\
  Live.check_logs_for_success (Some [Sample.full_close_line])
  = (Live.STrue, parsed Sample.full_close_line).
Proof.
  split; [|vm_compute; reflexivity].
  apply (stale_match_ignored [Sample.full_close_line] (replicate 500 Sample.plain_line)).
  - apply length_replicate.
  - apply Forall_replicate. vm_compute. reflexivity.
Defined.

(** X23: the log check returns data exactly with a truthy status, so the
    success report of [main] always has a record to read; a log that cannot
    be read and an empty log give [(False, None)]. *)
Theorem log_status_and_data (log : log_file) :
  (Live.truthy (Live.check_logs_for_success log).1 = true <->
   is_Some (Live.check_logs_for_success log).2) /\
  Live.check_logs_for_success None = (Live.SFalse, None) /\
  Live.check_logs_for_success (Some []) = (Live.SFalse, None).
Proof.
  split; [|split; reflexivity].
  pose proof (check_logs_status log) as H.
  destruct (Live.check_logs_for_success log) as [st d].
  destruct st, d as [data|]; simpl in *; try contradiction; split; intros H';
    first [reflexivity | discriminate | now exists data | now destruct H'].
Qed.

Lemma grep_stdout_skip (before rest : list log_line) :
  Forall (fun l => Monitor.grep_match l = false) before ->
  Monitor.grep_stdout (before ++ rest) = Monitor.grep_stdout rest.
Proof.
  induction 1 as [|l before Hl _ IH]; simpl; [reflexivity|]. now rewrite Hl.
Qed.

(** X24: [check_server_log] returns the matching lines of the whole file in
    the order of the file, so its output starts with the oldest match. *)
Theorem grep_oldest_first (before : list log_line) (line : log_line)
    (rest : list log_line) :
  Forall (fun l => Monitor.grep_match l = false) before ->
  Monitor.grep_match line = true ->
  Monitor.check_server_log (Some (before ++ line :: rest)) =
    Some (String.append (text line)
            (String.append newline (Monitor.grep_stdout rest))).
Proof.
  intros Hb Hl. unfold Monitor.check_server_log.
  rewrite (grep_stdout_skip _ _ Hb). simpl. rewrite Hl.
  pose proof (app_newline_nonempty (text line) (Monitor.grep_stdout rest)) as Hne.
  now destruct (String.append (text line)
                  (String.append newline (Monitor.grep_stdout rest))).
Qed.

Lemma grep_oldest_first_witness :
  Monitor.check_server_log
    (Some ([Sample.closing_line] ++ Sample.plain_line :: [Sample.plain_line_later])) =
    Some (String.append (text Sample.plain_line)
            (String.append newline (Monitor.grep_stdout [Sample.plain_line_later]))).
Proof.
  apply (grep_oldest_first [Sample.closing_line] Sample.plain_line
           [Sample.plain_line_later]).
  - repeat constructor.
  - vm_compute. reflexivity.
Defined.

(** X25: [check_server_log] confirms exactly when some line of the file
    holds, with the case of ASCII letters ignored, the word "sqdusdt" and
    behind it the words "booking profit"; nothing else of the line is
    looked at. *)
Theorem server_log_confirmation_text (lines : list log_line) :
  Monitor.check_server_log (Some lines) <> None <->
  Exists (fun l =>
            exists a b c,
              lower (text l) =
                String.append a (String.append "sqdusdt"
                  (String.append b (String.append "booking profit" c)))) lines.
Proof.
  rewrite check_server_log_confirms. split; intros H;
    (eapply Exists_impl; [exact H|]); intros l Hl; now apply grep_match_spec.
Qed.

End SearchFacts.

